(** * scripts/gdb/custom_commands.py: the [heapdump] GDB command

    A shallow embedding of the heap-dump command of the kernel's GDB
    helpers.  The command walks the allocator's size-class table in the
    memory of the debugged kernel, follows every partial-slab list, and
    compares each slab's stored allocation counter with the population
    count of its allocation bitmap.

    Conventions of the embedding
    - Every integer the script handles comes from an unsigned decoding, an
      address computation or a floor division of such numbers, so Python's
      [int] is modelled by [N].
    - A [bytes] object is a [list byte].
    - GDB itself (type lookup, symbol lookup, reading the inferior's memory)
      is a record of partial functions, see [gdb_host]; the field offsets
      that GDB derives from the kernel's debug information are parameters
      of that record.
    - [print] and every call into GDB is recorded in a trace of [event]s;
      a Python exception stops the computation and keeps the trace
      produced so far. *)

From Equations Require Import Equations.
From Stdlib Require Import NArith ZArith QArith Qround List Lia Bool.
From Stdlib Require Import String Strings.Byte HexString DecimalString.
From Stdlib Require Import Permutation.
Import ListNotations.

#[local] Open Scope N_scope.

(** ** Bit counting *)

Module Bits.

(** [count_int_bits]: the loop
    [[
        count = 0
        while b:
            count += 1
            b &= b - 1
        return count
    ]]
    with the loop state [(b, count)] made explicit.  The recursion is on
    the value of [b], which strictly decreases (see [clear_lowest_lt]). *)

(** The number obtained from a positive by clearing its lowest set bit,
    defined on the binary representation. *)
Fixpoint clear_lowest (p : positive) : N :=
  match p with
  | xH => 0
  | xO q => N.double (clear_lowest q)
  | xI q => Npos (xO q)
  end.

Lemma land_pred_clear_lowest (p : positive) :
  N.land (Npos p) (Npos p - 1) = clear_lowest p.
Proof.
  induction p as [q IH | q IH | ]; try reflexivity.
  - (* q~1: the predecessor is q~0, and the conjunction keeps q *)
    change (Npos q~1 - 1) with (Npos q~0). cbn.
    pose proof (N.land_diag (Npos q)) as D. cbn in D. rewrite D. reflexivity.
  - (* q~0: the predecessor is (q-1)~1, the lowest bit stays clear *)
    cbn [clear_lowest]. rewrite <- IH.
    destruct q; reflexivity.
Qed.

Lemma clear_lowest_lt (p : positive) : clear_lowest p < Npos p.
Proof.
  induction p as [q IH | q IH | ]; cbn [clear_lowest]; lia.
Qed.

Equations? count_int_bits_loop (b count : N) : N by wf (N.to_nat b) lt :=
  count_int_bits_loop N0 count := count;
  count_int_bits_loop (Npos p) count :=
    count_int_bits_loop (N.land (Npos p) (Npos p - 1)) (count + 1).
Proof.
  change (N.to_nat (N.land (Npos p) (Npos p - 1)) < N.to_nat (Npos p))%nat.
  rewrite land_pred_clear_lowest.
  pose proof (clear_lowest_lt p). lia.
Qed.

Definition count_int_bits (b : N) : N := count_int_bits_loop b 0.

(** [count_set_bits]: [sum(count_int_bits(b) for b in bitmap)].  Python's
    [sum] starts from 0 and adds the items from left to right. *)
Definition count_set_bits (bitmap : list byte) : N :=
  fold_left (fun acc b => acc + count_int_bits (Byte.to_N b)) bitmap 0.

(** The count of one byte of a bitmap, and the sum of a list of counts. *)
Definition byte_count (x : byte) : N := count_int_bits (Byte.to_N x).

Definition sum_N (l : list N) : N := fold_right N.add 0 l.

(** *** Reference notions of population count *)

(** Set bits of a number, read off its binary representation. *)
Fixpoint pos_popcount (p : positive) : N :=
  match p with
  | xH => 1
  | xO q => pos_popcount q
  | xI q => 1 + pos_popcount q
  end.

Definition popcount (n : N) : N :=
  match n with
  | N0 => 0
  | Npos p => pos_popcount p
  end.

(** Set bits of a byte value: how many of the bit positions 0..7 hold a 1. *)
Definition bits_set (b : N) : N :=
  N.of_nat (List.length (filter (N.testbit b) (map N.of_nat (seq 0 8)))).

End Bits.

(** ** Effects: traces, exceptions, sequencing *)

Module Eff.

(** The lines the command prints, one constructor per [print] call of the
    script; [render] gives the text. *)
Inductive line : Type :=
| LSizeClass (size slab_order : N)
| LSlab (cur_slab_addr allocated_objs bitmap_allocated_objs : N)
| LMismatch
| LUnlinked
| LBlank.

Definition dec (n : N) : string := NilZero.string_of_uint (N.to_uint n).

Definition render (l : line) : string :=
  match l with
  | LSizeClass size slab_order =>
      "Size class " ++ dec size ++ " (slab order " ++ dec slab_order ++ "):"
  | LSlab a n m =>
      "    Slab " ++ HexString.of_N a ++ " (" ++ dec n ++ " allocated, "
        ++ dec m ++ " allocated in bitmap)"
  | LMismatch => "        (allocated count and bitmap disagree, HEAP CORRUPT)"
  | LUnlinked => "    (unlinked, HEAP CORRUPT)"
  | LBlank => EmptyString
  end%string.

(** What a run does to the outside world, in order.  [EvWriteMemory] is
    GDB's [Inferior.write_memory]: it is part of the interface the script
    could call, and the only operation that changes the inferior. *)
Inductive event : Type :=
| EvLookupType (name : string)
| EvLookupSymbol (name : string)
| EvReadMemory (addr len : N)
| EvWriteMemory (addr : N) (data : list byte)
| EvPrint (l : line).

Inductive exn : Type :=
| GdbError (what : string)       (* gdb.error: the type is not known *)
| AttributeError (what : string) (* method call on None *)
| MemoryError (addr len : N).    (* gdb.MemoryError: unreadable range *)

(** How a computation ends.  [OutOfFuel] is not a Python outcome: it says
    that the bound put on the number of loop iterations was reached. *)
Inductive outcome (A : Type) : Type :=
| Returned (a : A)
| Raised (e : exn)
| OutOfFuel.
Arguments Returned {A} a.
Arguments Raised {A} e.
Arguments OutOfFuel {A}.

Definition M (A : Type) : Type := list event * outcome A.

Definition ret {A} (a : A) : M A := ([], Returned a).

Definition bind {A B} (m : M A) (k : A -> M B) : M B :=
  match m with
  | (t, Returned a) => let (t', r) := k a in (t ++ t', r)
  | (t, Raised e) => (t, Raised e)
  | (t, OutOfFuel) => (t, OutOfFuel)
  end.

Definition emit (e : event) : M unit := ([e], Returned tt).
Definition raise {A} (e : exn) : M A := ([], Raised e).
Definition print (l : line) : M unit := emit (EvPrint l).

Definition trace {A} (m : M A) : list event := fst m.
Definition result {A} (m : M A) : outcome A := snd m.

(** [for x in xs: body(x)] *)
Fixpoint for_each {A} (xs : list A) (body : A -> M unit) : M unit :=
  match xs with
  | [] => ret tt
  | x :: rest => bind (body x) (fun _ => for_each rest body)
  end.

(** The lines printed, in order. *)
Fixpoint printed (t : list event) : list line :=
  match t with
  | [] => []
  | EvPrint l :: t' => l :: printed t'
  | _ :: t' => printed t'
  end.

(** The memory ranges a run tried to read, in order. *)
Fixpoint reads (t : list event) : list (N * N) :=
  match t with
  | [] => []
  | EvReadMemory a n :: t' => (a, n) :: reads t'
  | _ :: t' => reads t'
  end.

End Eff.

Import Eff.

Declare Scope eff_scope.
Delimit Scope eff_scope with eff.
Notation "x <- m ;; k" := (bind m (fun x => k))
  (at level 61, m at next level, right associativity) : eff_scope.
Notation "m ;;; k" := (bind m (fun _ => k))
  (at level 61, right associativity) : eff_scope.
#[local] Open Scope eff_scope.

(** ** The debugger *)

Module Gdb.

(** An integer-valued field as GDB resolves it from the debug information:
    where it sits in its structure and how many bytes it occupies.  The
    kernel's fields are unsigned ([usize] and the like), so [int(value)]
    decodes the bytes as an unsigned little-endian number. *)
Record field : Type := { f_offset : N; f_size : N }.

(** [kernel::mm::heap::SizeClass]: its size, the three fields under [meta],
    and the offset of [inner.data.value.partial_slabs.head]. *)
Record SizeClass_type : Type := {
  sc_sizeof : N;
  sc_meta_size : field;
  sc_meta_slab_order : field;
  sc_meta_objects_per_slab : field;
  sc_partial_slabs_head : N
}.

(** [kernel::mm::heap::SlabHeader]: its size, the field
    [allocated.value.value], and the offset of [link.next]. *)
Record SlabHeader_type : Type := {
  sh_sizeof : N;
  sh_allocated : field;
  sh_link_next : N
}.

(** What the script asks of GDB: the two types, the address of the static
    [kernel::mm::heap::ALLOCATOR], and the memory of the first inferior
    (an address is mapped to the byte it holds, or to nothing when it is
    not readable). *)
Record gdb_host : Type := {
  memory : N -> option byte;
  type_SizeClass : option SizeClass_type;
  type_SlabHeader : option SlabHeader_type;
  symbol_ALLOCATOR : option N
}.

(** The [n] bytes from [addr] on, when all of them are readable. *)
Fixpoint fetch (mem : N -> option byte) (addr : N) (n : nat) : option (list byte) :=
  match n with
  | O => Some []
  | S k =>
      match mem addr, fetch mem (addr + 1) k with
      | Some b, Some bs => Some (b :: bs)
      | _, _ => None
      end
  end.

(** [inferior.read_memory(addr, length)]: the bytes of the range, or
    [gdb.MemoryError] when one of them is not readable.  The attempt is
    recorded in both cases.  A range of length 0 holds no byte and is
    taken to be readable. *)
Definition read_memory (h : gdb_host) (addr length : N) : M (list byte) :=
  emit (EvReadMemory addr length) ;;;
  match fetch (memory h) addr (N.to_nat length) with
  | Some bs => ret bs
  | None => raise (MemoryError addr length)
  end.

(** [int.from_bytes(bs, "little")] *)
Definition from_bytes_little (bs : list byte) : N :=
  fold_right (fun b acc => Byte.to_N b + 256 * acc) 0 bs.

(** [int(v)] for the value [v] of an integer field located at [addr]. *)
Definition value_int (h : gdb_host) (addr : N) (f : field) : M N :=
  bs <- read_memory h (addr + f_offset f) (f_size f) ;;
  ret (from_bytes_little bs).

Definition name_SizeClass : string := "kernel::mm::heap::SizeClass".
Definition name_SlabHeader : string := "kernel::mm::heap::SlabHeader".
Definition name_ALLOCATOR : string := "kernel::mm::heap::ALLOCATOR".

(** [gdb.lookup_type(name)] raises [gdb.error] for an unknown type. *)
Definition lookup_type {T} (name : string) (ty : option T) : M T :=
  emit (EvLookupType name) ;;;
  match ty with
  | Some t => ret t
  | None => raise (GdbError name)
  end.

(** [gdb.lookup_static_symbol(name).value().address]: the lookup returns
    [None] for an unknown symbol, and [.value()] on it raises. *)
Definition lookup_static_symbol_address (name : string) (sym : option N) : M N :=
  emit (EvLookupSymbol name) ;;;
  match sym with
  | Some a => ret a
  | None => raise (AttributeError name)
  end.

End Gdb.

Import Gdb.

(** ** The script *)

Definition SIZE_CLASS_COUNT : nat := 25.

Record SizeClassMeta : Type := {
  size : N;
  slab_order : N;
  objects_per_slab : N
}.

(** [read_u64] *)
Definition read_u64 (h : gdb_host) (addr : N) : M N :=
  bs <- read_memory h addr 8 ;;
  ret (from_bytes_little bs).

Import Bits.

Module HeapDumpCmd.

(** [bitmap_size = (metadata.objects_per_slab + 7) // 8] *)
Definition bitmap_size (metadata : SizeClassMeta) : N :=
  (objects_per_slab metadata + 7) / 8.

(** One execution of the loop body of [_print_slab_list] for a slab address
    that is neither 0 nor 1; the value returned is the new
    [cur_slab_addr].  [int(slab_ptr + 1)] is the address one slab header
    further; addresses are kept as natural numbers, without reduction
    modulo 2^64. *)
Definition visit_slab (h : gdb_host) (slab_header_type : SlabHeader_type)
    (bitmap_size cur_slab_addr : N) : M N :=
  allocated_objs <- value_int h cur_slab_addr (sh_allocated slab_header_type) ;;
  let bitmap_ptr := cur_slab_addr + sh_sizeof slab_header_type in
  bitmap <- read_memory h bitmap_ptr bitmap_size ;;
  let bitmap_allocated_objs := count_set_bits bitmap in
  print (LSlab cur_slab_addr allocated_objs bitmap_allocated_objs) ;;;
  (if negb (allocated_objs =? bitmap_allocated_objs)
   then print LMismatch else ret tt) ;;;
  read_u64 h (cur_slab_addr + sh_link_next slab_header_type).

(** The [while cur_slab_addr != 0] loop.  [fuel] bounds the number of
    times the body is entered for a slab. *)
Fixpoint slab_loop (fuel : nat) (h : gdb_host) (slab_header_type : SlabHeader_type)
    (bitmap_size cur_slab_addr : N) : M unit :=
  if cur_slab_addr =? 0 then ret tt
  else if cur_slab_addr =? 1 then print LUnlinked
  else
    match fuel with
    | O => ([], OutOfFuel)
    | S fuel' =>
        next <- visit_slab h slab_header_type bitmap_size cur_slab_addr ;;
        slab_loop fuel' h slab_header_type bitmap_size next
    end.

(** [_print_slab_list] *)
Definition _print_slab_list (fuel : nat) (h : gdb_host)
    (cur_slab_addr : N) (metadata : SizeClassMeta) : M unit :=
  let bitmap_size := bitmap_size metadata in
  slab_header_type <- lookup_type name_SlabHeader (type_SlabHeader h) ;;
  slab_loop fuel h slab_header_type bitmap_size cur_slab_addr.

(** The body of the [for size_class_idx in range(SIZE_CLASS_COUNT)] loop of
    [invoke].  [allocator_addr[size_class_idx]] is the element at
    [allocator_addr + size_class_idx * sizeof(SizeClass)]. *)
Definition size_class_entry (size_class_type : SizeClass_type)
    (allocator_addr : N) (size_class_idx : nat) : N :=
  allocator_addr + N.of_nat size_class_idx * sc_sizeof size_class_type.

Definition dump_size_class (fuel : nat) (h : gdb_host)
    (size_class_type : SizeClass_type) (allocator_addr : N)
    (size_class_idx : nat) : M unit :=
  let size_class := size_class_entry size_class_type allocator_addr size_class_idx in
  m_size <- value_int h size_class (sc_meta_size size_class_type) ;;
  m_slab_order <- value_int h size_class (sc_meta_slab_order size_class_type) ;;
  m_objects <- value_int h size_class (sc_meta_objects_per_slab size_class_type) ;;
  let metadata :=
    {| size := m_size; slab_order := m_slab_order; objects_per_slab := m_objects |} in
  let partial_slab_head_addr := size_class + sc_partial_slabs_head size_class_type in
  partial_slab_head <- read_u64 h partial_slab_head_addr ;;
  print (LSizeClass (size metadata) (slab_order metadata)) ;;;
  _print_slab_list fuel h partial_slab_head metadata ;;;
  print LBlank.

(** [invoke] *)
Definition invoke (fuel : nat) (h : gdb_host) : M unit :=
  size_class_type <- lookup_type name_SizeClass (type_SizeClass h) ;;
  allocator_addr <- lookup_static_symbol_address name_ALLOCATOR (symbol_ALLOCATOR h) ;;
  for_each (seq 0 SIZE_CLASS_COUNT)
    (dump_size_class fuel h size_class_type allocator_addr).

End HeapDumpCmd.

Import HeapDumpCmd.

(** ** Synthetic heaps

    Memory images used to run the command on concrete inputs.  The layout
    is the one of a 64-bit kernel: a size class is four 8-byte words
    ([size], [slab_order], [objects_per_slab], list head), a slab header is
    two ([allocated], [link.next]) and the bitmap follows it. *)

Module Scenario.

Definition byte_of (n : N) : byte :=
  match Byte.of_N (n mod 256) with
  | Some b => b
  | None => x00
  end.

(** [v.to_bytes(n, "little")] *)
Fixpoint le_bytes (n : nat) (v : N) : list byte :=
  match n with
  | O => []
  | S k => byte_of v :: le_bytes k (v / 256)
  end.

Definition region : Type := N * list byte.

Fixpoint memory_of (rs : list region) (a : N) : option byte :=
  match rs with
  | [] => None
  | (base, bs) :: rest =>
      if (base <=? a) && (a <? base + N.of_nat (List.length bs))
      then nth_error bs (N.to_nat (a - base))
      else memory_of rest a
  end.

Definition size_class_type : SizeClass_type :=
  {| sc_sizeof := 32;
     sc_meta_size := {| f_offset := 0; f_size := 8 |};
     sc_meta_slab_order := {| f_offset := 8; f_size := 8 |};
     sc_meta_objects_per_slab := {| f_offset := 16; f_size := 8 |};
     sc_partial_slabs_head := 24 |}.

Definition slab_header_type : SlabHeader_type :=
  {| sh_sizeof := 16;
     sh_allocated := {| f_offset := 0; f_size := 8 |};
     sh_link_next := 8 |}.

Definition descriptor (size slab_order objects_per_slab head : N) : list byte :=
  le_bytes 8 size ++ le_bytes 8 slab_order
    ++ le_bytes 8 objects_per_slab ++ le_bytes 8 head.

Definition slab (allocated next : N) (bitmap : list byte) : list byte :=
  le_bytes 8 allocated ++ le_bytes 8 next ++ bitmap.

Definition table_base : N := 4096.

(** Size class [i] serves objects of [16 * (i + 1)] bytes, 64 per slab;
    class 0 has the list head [head0], the others have empty lists. *)
Definition table (head0 : N) : region :=
  (table_base,
   flat_map
     (fun i => descriptor (16 * (N.of_nat i + 1)) 0 64 (if Nat.eqb i 0 then head0 else 0))
     (seq 0 SIZE_CLASS_COUNT)).

Definition host_of (rs : list region) : gdb_host :=
  {| memory := memory_of rs;
     type_SizeClass := Some size_class_type;
     type_SlabHeader := Some slab_header_type;
     symbol_ALLOCATOR := Some table_base |}.

Definition bitmap3 : list byte := [x07; x00; x00; x00; x00; x00; x00; x00]%byte.

(** One slab, bits 0, 1 and 2 set, counter 3. *)
Definition consistent : gdb_host :=
  host_of [table 8192; (8192, slab 3 0 bitmap3)].

(** The same slab with the counter changed to 4. *)
Definition inconsistent : gdb_host :=
  host_of [table 8192; (8192, slab 4 0 bitmap3)].

(** Two slabs, the first one with a wrong counter. *)
Definition two_slabs : gdb_host :=
  host_of [table 8192; (8192, slab 4 12288 bitmap3); (12288, slab 3 0 bitmap3)].

(** Two slabs, the second one linking to the unlinked marker. *)
Definition unlinked : gdb_host :=
  host_of [table 8192; (8192, slab 3 12288 bitmap3); (12288, slab 3 1 bitmap3)].

(** The list head of class 0 points into unmapped memory. *)
Definition unreadable : gdb_host :=
  host_of [table 20480].

(** One slab whose link points into unmapped memory. *)
Definition dangling : gdb_host :=
  host_of [table 8192; (8192, slab 3 36864 bitmap3)].

(** A slab of a class with 5 objects per slab: slots 0 and 1 allocated,
    counter 2, and bit 7 of the only bitmap byte set. *)
Definition padded : gdb_host :=
  host_of [(8192, slab 2 0 [x83]%byte)].

(** No memory at all, and no debug information. *)
Definition unmapped : gdb_host := host_of [].

Definition stripped : gdb_host :=
  {| memory := memory_of [table 8192; (8192, slab 3 0 bitmap3)];
     type_SizeClass := None;
     type_SlabHeader := None;
     symbol_ALLOCATOR := None |}.

(** The size class is known to the debugger, the slab header is not. *)
Definition headerless : gdb_host :=
  {| memory := memory_of [table 8192; (8192, slab 3 0 bitmap3)];
     type_SizeClass := Some size_class_type;
     type_SlabHeader := None;
     symbol_ALLOCATOR := Some table_base |}.

(** Two slabs linked in a cycle. *)
Definition cyclic : gdb_host :=
  host_of [table 8192; (8192, slab 3 12288 bitmap3); (12288, slab 3 8192 bitmap3)].

Definition meta5 : SizeClassMeta :=
  {| size := 16; slab_order := 0; objects_per_slab := 5 |}.

Definition meta64 : SizeClassMeta :=
  {| size := 16; slab_order := 0; objects_per_slab := 64 |}.

End Scenario.

(** ** Reading a run's output as a report *)

Module Report.

Definition is_slab_entry (l : line) : bool :=
  match l with LSlab _ _ _ => true | _ => false end.

Definition is_size_class_header (l : line) : bool :=
  match l with LSizeClass _ _ => true | _ => false end.

Definition is_unlinked (l : line) : bool :=
  match l with LUnlinked => true | _ => false end.

Definition is_mismatch (l : line) : bool :=
  match l with LMismatch => true | _ => false end.

(** The slab entries of a report, in the order printed. *)
Definition slab_entries (ls : list line) : list line := filter is_slab_entry ls.

(** The addresses of the slabs reported. *)
Definition slab_addresses (ls : list line) : list N :=
  flat_map (fun l => match l with LSlab a _ _ => [a] | _ => [] end) ls.

(** The size-class headers of a report, in the order printed. *)
Definition size_class_headers (ls : list line) : list line :=
  filter is_size_class_header ls.

(** The list of a size class was found unlinked. *)
Definition corrupt_flag (ls : list line) : bool := existsb is_unlinked ls.

(** A slab's counter and bitmap were found to disagree. *)
Definition mismatch_flag (ls : list line) : bool := existsb is_mismatch ls.

(** The number of bits set in a bitmap, position by position. *)
Definition bitmap_bits_set (bitmap : list byte) : N :=
  sum_N (map (fun x => bits_set (Byte.to_N x)) bitmap).

(** Bit [i] of a bitmap is bit [i mod 8] of its byte [i / 8]; slot [i] of a
    slab is allocated when this bit is set. *)
Definition bitmap_bit (bitmap : list byte) (i : nat) : bool :=
  match nth_error bitmap (i / 8) with
  | Some x => N.testbit (Byte.to_N x) (N.of_nat (i mod 8))
  | None => false
  end.

(** The number of bits set among the [len] bits from bit [from] on. *)
Definition bits_in_range (bitmap : list byte) (from len : nat) : N :=
  N.of_nat (List.length (filter (bitmap_bit bitmap) (seq from len))).

(** The bits of the [k] slots of a slab, and the bits after them in the
    bytes read. *)
Definition slot_bits (bitmap : list byte) (k : N) : N :=
  bits_in_range bitmap 0 (N.to_nat k).

Definition padding_bits (bitmap : list byte) (k : N) : N :=
  bits_in_range bitmap (N.to_nat k) (8 * List.length bitmap - N.to_nat k).

End Report.

Import Report.

(** ** Free lists in the inferior's memory *)

(** The slab at address [a] as the memory holds it: its stored counter,
    the [bsz] bytes of its bitmap and its stored link, when the three
    ranges are readable.  The counter sits at [allocated.value.value], the
    bitmap right after the header, the link at [link.next]; numbers are
    stored little-endian. *)
Definition slab_at (h : gdb_host) (ty : SlabHeader_type) (bsz a : N)
    : option (N * list byte * N) :=
  match fetch (memory h) (a + f_offset (sh_allocated ty))
          (N.to_nat (f_size (sh_allocated ty))),
        fetch (memory h) (a + sh_sizeof ty) (N.to_nat bsz),
        fetch (memory h) (a + sh_link_next ty) 8 with
  | Some counter, Some bitmap, Some link =>
      Some (from_bytes_little counter, bitmap, from_bytes_little link)
  | _, _, _ => None
  end.

(** The three ranges of the slab at [a]: counter, bitmap, link. *)
Definition slab_ranges (ty : SlabHeader_type) (bsz a : N) : list (N * N) :=
  [(a + f_offset (sh_allocated ty), f_size (sh_allocated ty));
   (a + sh_sizeof ty, bsz);
   (a + sh_link_next ty, 8)].

(** The lines due for the slab at [a], read off the memory: its entry with
    the stored counter and the number of bits set in its bitmap, followed
    by the mismatch line when the two differ. *)
Definition slab_report (h : gdb_host) (ty : SlabHeader_type) (bsz a : N)
    : list line :=
  match slab_at h ty bsz a with
  | Some (counter, bitmap, _) =>
      LSlab a counter (bitmap_bits_set bitmap)
        :: (if counter =? bitmap_bits_set bitmap then [] else [LMismatch])
  | None => []
  end.

(** [free_list_at h ty bsz cur slabs last]: in the memory of [h], starting
    from the link [cur], the slab headers at the addresses [slabs] are
    linked one to the next in this order, every one of them is a proper
    address (neither 0 nor 1) whose counter, bitmap and link are readable,
    and the link stored in the last of them (or [cur] itself when there is
    none) is [last]. *)
Fixpoint free_list_at (h : gdb_host) (ty : SlabHeader_type) (bsz : N)
    (cur : N) (slabs : list N) (last : N) : bool :=
  match slabs with
  | [] => cur =? last
  | a :: rest =>
      (cur =? a) && negb (a =? 0) && negb (a =? 1) &&
      match slab_at h ty bsz a with
      | Some (_, _, next) => free_list_at h ty bsz next rest last
      | None => false
      end
  end.

(** ** The inferior's memory under a run's events *)

Definition write_bytes (mem : N -> option byte) (addr : N) (data : list byte)
    : N -> option byte :=
  fun a =>
    if (addr <=? a) && (a <? addr + N.of_nat (List.length data))
    then nth_error data (N.to_nat (a - addr))
    else mem a.

Definition effect_on_memory (mem : N -> option byte) (e : event)
    : N -> option byte :=
  match e with
  | EvWriteMemory addr data => write_bytes mem addr data
  | _ => mem
  end.

Definition memory_after (t : list event) (mem : N -> option byte)
    : N -> option byte :=
  fold_left effect_on_memory t mem.

Definition is_query (e : event) : bool :=
  match e with
  | EvLookupType _ | EvLookupSymbol _ | EvReadMemory _ _ | EvPrint _ => true
  | EvWriteMemory _ _ => false
  end.

Definition with_memory (h : gdb_host) (mem : N -> option byte) : gdb_host :=
  {| memory := mem;
     type_SizeClass := type_SizeClass h;
     type_SlabHeader := type_SlabHeader h;
     symbol_ALLOCATOR := symbol_ALLOCATOR h |}.

(** Size class [j] was attempted in a run: the [size] field of the [j]-th
    element of the table was read. *)
Definition attempted (ty : SizeClass_type) (base : N) (j : nat)
    (t : list event) : Prop :=
  In (EvReadMemory
        (size_class_entry ty base j + f_offset (sc_meta_size ty))
        (f_size (sc_meta_size ty))) t.

(** What every run starts with: the two lookups of [invoke]. *)
Definition prelude : list event :=
  [EvLookupType name_SizeClass; EvLookupSymbol name_ALLOCATOR].

(** The size-class headers among the events of a run. *)
Definition headers (t : list event) : list line := size_class_headers (printed t).

Definition not_header (e : event) : Prop :=
  match e with
  | EvPrint l => is_size_class_header l = false
  | _ => True
  end.

(** ** Size-class entries in the inferior's memory *)

(** The four reads made for the table entry at address [e]. *)
Definition descriptor_reads (ty : SizeClass_type) (e : N) : list event :=
  [EvReadMemory (e + f_offset (sc_meta_size ty)) (f_size (sc_meta_size ty));
   EvReadMemory (e + f_offset (sc_meta_slab_order ty)) (f_size (sc_meta_slab_order ty));
   EvReadMemory (e + f_offset (sc_meta_objects_per_slab ty))
     (f_size (sc_meta_objects_per_slab ty));
   EvReadMemory (e + sc_partial_slabs_head ty) 8].

(** What the table entry at address [e] decodes to, when its three
    [meta] fields and its list head are readable. *)
Definition read_descriptor (h : gdb_host) (ty : SizeClass_type) (e : N)
    : option (SizeClassMeta * N) :=
  match result (value_int h e (sc_meta_size ty)),
        result (value_int h e (sc_meta_slab_order ty)),
        result (value_int h e (sc_meta_objects_per_slab ty)),
        result (read_u64 h (e + sc_partial_slabs_head ty)) with
  | Returned s, Returned o, Returned k, Returned head =>
      Some ({| size := s; slab_order := o; objects_per_slab := k |}, head)
  | _, _, _, _ => None
  end.

(** What follows the walk of a list in the report of a size class: the
    blank line when the walk returned, and the outcome of the walk. *)
Definition after_walk (w : M unit) : list event * outcome unit :=
  (match result w with Returned _ => [EvPrint LBlank] | _ => [] end,
   match result w with
   | Returned _ => Returned tt
   | Raised x => Raised x
   | OutOfFuel => OutOfFuel
   end).

(** Size class [i] is sound: its entry decodes, and its list consists of
    the slabs [slabs] and ends in [last], which is 0 or 1. *)
Definition sound_class (h : gdb_host) (ty : SizeClass_type)
    (sh : SlabHeader_type) (base : N) (i : nat) (slabs : list N) (last : N)
    : bool :=
  match read_descriptor h ty (size_class_entry ty base i) with
  | Some (metadata, head) =>
      free_list_at h sh (bitmap_size metadata) head slabs last
      && ((last =? 0) || (last =? 1))
  | None => false
  end.

Definition is_blank (l : line) : bool :=
  match l with LBlank => true | _ => false end.

Definition slab_line (l : line) : Prop :=
  is_slab_entry l = true \/ is_mismatch l = true.

Definition unlinked_lines (t : list event) : nat :=
  List.length (filter is_unlinked (printed t)).

Definition blank_lines (t : list event) : nat :=
  List.length (filter is_blank (printed t)).

(** * Properties *)

(** ** Bit counting *)

Section BitCounting.

Lemma popcount_double (n : N) : popcount (N.double n) = popcount n.
Proof. destruct n; reflexivity. Qed.

(** Clearing the lowest set bit removes exactly one set bit. *)
Lemma popcount_clear_lowest (p : positive) :
  popcount (clear_lowest p) + 1 = pos_popcount p.
Proof.
  induction p as [q IH | q IH | ]; cbn [clear_lowest pos_popcount].
  - change (popcount (Npos q~0)) with (pos_popcount q). lia.
  - rewrite popcount_double. exact IH.
  - reflexivity.
Qed.

(** The loop adds to [count] one unit per set bit of [b]. *)
Lemma count_int_bits_loop_spec (b count : N) :
  count_int_bits_loop b count = count + popcount b.
Proof.
  funelim (count_int_bits_loop b count); simp count_int_bits_loop.
  - cbn. lia.
  - match goal with IH : count_int_bits_loop _ _ = _ + popcount _ |- _ =>
      rewrite IH end.
    rewrite land_pred_clear_lowest.
    pose proof (popcount_clear_lowest p). cbn [popcount]. lia.
Qed.

Lemma count_int_bits_popcount (b : N) : count_int_bits b = popcount b.
Proof. unfold count_int_bits. rewrite count_int_bits_loop_spec. lia. Qed.

Lemma popcount_byte (x : byte) : popcount (Byte.to_N x) = bits_set (Byte.to_N x).
Proof. destruct x; reflexivity. Qed.

Lemma count_set_bits_from (bitmap : list byte) (acc : N) :
  fold_left (fun a b => a + count_int_bits (Byte.to_N b)) bitmap acc
  = acc + sum_N (map byte_count bitmap).
Proof.
  revert acc. induction bitmap as [| x rest IH]; intros acc; cbn.
  - lia.
  - rewrite IH. unfold byte_count, sum_N. lia.
Qed.

Lemma count_set_bits_sum (bitmap : list byte) :
  count_set_bits bitmap = sum_N (map byte_count bitmap).
Proof. unfold count_set_bits. rewrite count_set_bits_from. lia. Qed.

Lemma count_set_bits_cons (x : byte) (rest : list byte) :
  count_set_bits (x :: rest) = byte_count x + count_set_bits rest.
Proof. rewrite !count_set_bits_sum. reflexivity. Qed.

Lemma count_set_bits_app (b1 b2 : list byte) :
  count_set_bits (b1 ++ b2) = count_set_bits b1 + count_set_bits b2.
Proof.
  induction b1 as [| x rest IH]; cbn [app].
  - reflexivity.
  - rewrite !count_set_bits_cons, IH. lia.
Qed.

(** C6: for a byte value [b] (at most 255) [count_int_bits] returns the
    number of bit positions of [b] that are set, and [count_set_bits] of a
    byte sequence is the sum of the counts of its bytes. *)
Theorem count_bits_exact (b : N) (bitmap : list byte) (Hb : b <= 255) :
  count_int_bits b = bits_set b /\
  count_set_bits bitmap
  = sum_N (map (fun x => count_int_bits (Byte.to_N x)) bitmap).
Proof.
  split.
  - rewrite count_int_bits_popcount.
    destruct (Byte.of_N b) as [x |] eqn:E.
    + apply Byte.to_of_N in E. subst b. apply popcount_byte.
    + apply Byte.of_N_None_iff in E. lia.
  - apply count_set_bits_sum.
Qed.

Lemma count_bits_exact_witness :
  181 <= 255 /\
  count_int_bits 181 = 5 /\
  count_set_bits [x07; xff; x00; x80]%byte = 12.
Proof.
  split; [vm_compute; discriminate |].
  destruct (count_bits_exact 181 [x07; xff; x00; x80]%byte) as [H1 H2].
  - vm_compute; discriminate.
  - split; [rewrite H1 | rewrite H2]; reflexivity.
Defined.

(** C7: the bitmap count is the sum of the per-byte counts, it is additive
    over concatenation, and it is the same for every rearrangement of the
    bytes. *)
Theorem count_set_bits_permutation (B B' C : list byte) (HP : Permutation B B') :
  count_set_bits B = sum_N (map byte_count B) /\
  count_set_bits B' = count_set_bits B /\
  count_set_bits (B ++ C) = count_set_bits B + count_set_bits C.
Proof.
  split; [apply count_set_bits_sum |].
  split; [| apply count_set_bits_app].
  induction HP.
  - reflexivity.
  - rewrite !count_set_bits_cons. congruence.
  - rewrite !count_set_bits_cons. lia.
  - congruence.
Qed.

Lemma count_set_bits_permutation_witness :
  count_set_bits [x80; x07; xff]%byte = count_set_bits [x07; x80; xff]%byte.
Proof.
  apply (count_set_bits_permutation [x07; x80; xff]%byte [x80; x07; xff]%byte []).
  apply perm_swap.
Defined.

End BitCounting.

(** ** Sequencing *)

Section Sequencing.

Context {A B : Type}.

Lemma bind_returned (m : M A) (k : A -> M B) (a : A) :
  result m = Returned a ->
  bind m k = (trace m ++ trace (k a), result (k a)).
Proof.
  destruct m as [t r]; cbn; intros ->. cbn. destruct (k a); reflexivity.
Qed.

Lemma bind_raised (m : M A) (k : A -> M B) (e : exn) :
  result m = Raised e -> bind m k = (trace m, Raised e).
Proof. destruct m as [t r]; cbn; intros ->. reflexivity. Qed.

Lemma bind_out_of_fuel (m : M A) (k : A -> M B) :
  result m = OutOfFuel -> bind m k = (trace m, OutOfFuel).
Proof. destruct m as [t r]; cbn; intros ->. reflexivity. Qed.

(** A computation that returns has run its first part to the end. *)
Lemma bind_returned_inv (m : M A) (k : A -> M B) (b : B) :
  result (bind m k) = Returned b ->
  exists a, result m = Returned a /\ result (k a) = Returned b.
Proof.
  destruct m as [t [a | e |]]; cbn; try discriminate.
  destruct (k a) eqn:E; cbn. intros ->. exists a. rewrite E. auto.
Qed.

End Sequencing.

Lemma printed_app (t1 t2 : list event) :
  printed (t1 ++ t2) = printed t1 ++ printed t2.
Proof.
  induction t1 as [| [] t1 IH]; cbn; rewrite ?IH; reflexivity.
Qed.

Lemma printed_flat_map {A} (f : A -> list event) (xs : list A) :
  printed (flat_map f xs) = flat_map (fun x => printed (f x)) xs.
Proof.
  induction xs as [| x rest IH]; cbn [flat_map]; [reflexivity |].
  rewrite printed_app, IH. reflexivity.
Qed.

Lemma reads_app (t1 t2 : list event) :
  reads (t1 ++ t2) = reads t1 ++ reads t2.
Proof.
  induction t1 as [| [] t1 IH]; cbn; rewrite ?IH; reflexivity.
Qed.

(** ** One slab *)

Section OneSlab.

Variable h : gdb_host.
Variable ty : SlabHeader_type.
Variable bsz : N.
Variable a : N.

Lemma read_memory_trace (addr len : N) :
  trace (read_memory h addr len) = [EvReadMemory addr len].
Proof.
  unfold read_memory. cbn. destruct (fetch _ _ _); reflexivity.
Qed.

Lemma value_int_trace (addr : N) (f : field) :
  trace (value_int h addr f) = [EvReadMemory (addr + f_offset f) (f_size f)].
Proof.
  unfold value_int, read_memory. cbn. destruct (fetch _ _ _); reflexivity.
Qed.

Lemma read_u64_trace (addr : N) :
  trace (read_u64 h addr) = [EvReadMemory addr 8].
Proof.
  unfold read_u64, read_memory. cbn. destruct (fetch _ _ _); reflexivity.
Qed.

(** The events of a visit whose counter and bitmap are readable. *)
Lemma visit_slab_trace (counter : N) (bitmap : list byte) :
  result (value_int h a (sh_allocated ty)) = Returned counter ->
  result (read_memory h (a + sh_sizeof ty) bsz) = Returned bitmap ->
  trace (visit_slab h ty bsz a)
  = [EvReadMemory (a + f_offset (sh_allocated ty)) (f_size (sh_allocated ty));
     EvReadMemory (a + sh_sizeof ty) bsz;
     EvPrint (LSlab a counter (count_set_bits bitmap))]
    ++ (if counter =? count_set_bits bitmap then [] else [EvPrint LMismatch])
    ++ [EvReadMemory (a + sh_link_next ty) 8].
Proof.
  unfold visit_slab, value_int, read_u64, read_memory. cbn.
  destruct (fetch (memory h) (a + f_offset _) _); cbn; [| discriminate].
  intros [= <-].
  destruct (fetch (memory h) (a + sh_sizeof ty) _); cbn; [| discriminate].
  intros [= <-].
  destruct (_ =? _); cbn; destruct (fetch (memory h) _ _); reflexivity.
Qed.

(** A visit that returns has read a counter and a bitmap. *)
Lemma visit_slab_returned_inv (next : N) :
  result (visit_slab h ty bsz a) = Returned next ->
  exists counter bitmap,
    result (value_int h a (sh_allocated ty)) = Returned counter /\
    result (read_memory h (a + sh_sizeof ty) bsz) = Returned bitmap.
Proof.
  unfold visit_slab. intros H.
  apply bind_returned_inv in H. destruct H as [counter [Hc H]].
  apply bind_returned_inv in H. destruct H as [bitmap [Hb _]].
  eauto.
Qed.

End OneSlab.

Lemma count_set_bits_bits_set (bitmap : list byte) :
  count_set_bits bitmap = bitmap_bits_set bitmap.
Proof.
  rewrite count_set_bits_sum. unfold bitmap_bits_set, byte_count.
  f_equal. apply map_ext. intros x.
  rewrite count_int_bits_popcount. apply popcount_byte.
Qed.

(** C4: for a visited slab whose bitmap has exactly [m] bits set, the entry
    printed shows the stored counter and [m], and the mismatch line is
    printed exactly when the stored counter differs from [m]. *)
Theorem mismatch_flag_iff (h : gdb_host) (ty : SlabHeader_type) (bsz a : N)
    (counter m : N) (bitmap : list byte)
    (Hcounter : result (value_int h a (sh_allocated ty)) = Returned counter)
    (Hbitmap : result (read_memory h (a + sh_sizeof ty) bsz) = Returned bitmap)
    (Hm : bitmap_bits_set bitmap = m) :
  let entry := printed (trace (visit_slab h ty bsz a)) in
  slab_entries entry = [LSlab a counter m] /\
  (counter = m -> mismatch_flag entry = false) /\
  (counter <> m -> mismatch_flag entry = true).
Proof.
  intros entry. subst entry.
  rewrite (visit_slab_trace h ty bsz a counter bitmap Hcounter Hbitmap).
  rewrite count_set_bits_bits_set, Hm.
  destruct (N.eqb_spec counter m) as [E | E]; cbn;
    (split; [| split]); intros; try reflexivity; congruence.
Qed.

Lemma mismatch_flag_iff_witness :
  mismatch_flag
    (printed (trace (visit_slab Scenario.consistent Scenario.slab_header_type 8 8192)))
  = false /\
  mismatch_flag
    (printed (trace (visit_slab Scenario.inconsistent Scenario.slab_header_type 8 8192)))
  = true.
Proof.
  split.
  - apply (mismatch_flag_iff Scenario.consistent Scenario.slab_header_type 8 8192
             3 3 Scenario.bitmap3); reflexivity.
  - apply (mismatch_flag_iff Scenario.inconsistent Scenario.slab_header_type 8 8192
             4 3 Scenario.bitmap3); try reflexivity.
    vm_compute. discriminate.
Defined.

Lemma bitmap_size_ceiling (k : N) :
  Z.of_N ((k + 7) / 8) = Qceiling (Z.of_N k # 8).
Proof.
  unfold Qceiling, Qfloor, Qopp. cbn [Qnum Qden].
  rewrite N2Z.inj_div, N2Z.inj_add. change (Z.of_N 7) with 7%Z.
  change (Z.of_N 8) with 8%Z. change (Z.pos 8) with 8%Z.
  pose proof (N2Z.is_nonneg k).
  Z.to_euclidean_division_equations. lia.
Qed.

(** ** Walking a list *)

Section Walk.

Variable h : gdb_host.
Variable ty : SlabHeader_type.
Variable bsz : N.

Let visit (a : N) : list event := trace (visit_slab h ty bsz a).

(** The three reads of a visit give what the memory holds. *)
Lemma slab_at_reads (a counter next : N) (bitmap : list byte) :
  slab_at h ty bsz a = Some (counter, bitmap, next) ->
  result (value_int h a (sh_allocated ty)) = Returned counter /\
  result (read_memory h (a + sh_sizeof ty) bsz) = Returned bitmap /\
  result (read_u64 h (a + sh_link_next ty)) = Returned next.
Proof.
  unfold slab_at, value_int, read_u64, read_memory.
  change (N.to_nat 8) with 8%nat.
  destruct (fetch (memory h) (a + f_offset _) _) as [c |]; [| discriminate].
  destruct (fetch (memory h) (a + sh_sizeof ty) _) as [bm |]; [| discriminate].
  destruct (fetch (memory h) (a + sh_link_next ty) 8) as [l |]; [| discriminate].
  intros [= <- <- <-]. repeat split.
Qed.

(** The visit of a readable slab returns the link stored in it, whether
    its counter agrees with its bitmap or not. *)
Lemma visit_slab_of_slab_at (a counter next : N) (bitmap : list byte) :
  slab_at h ty bsz a = Some (counter, bitmap, next) ->
  result (visit_slab h ty bsz a) = Returned next.
Proof.
  intros Hs. destruct (slab_at_reads _ _ _ _ Hs) as [Hc [Hb Hl]].
  unfold visit_slab.
  rewrite (bind_returned _ _ _ Hc). cbn [result snd].
  rewrite (bind_returned _ _ _ Hb). cbn [result snd].
  rewrite (bind_returned (print _) _ tt eq_refl). cbn [result snd].
  destruct (negb _);
    [rewrite (bind_returned (print _) _ tt eq_refl)
    | rewrite (bind_returned (ret tt) _ tt eq_refl)];
    cbn [result snd]; exact Hl.
Qed.

(** What a list in memory says of its first slab. *)
Lemma free_list_at_inv (cur a : N) (rest : list N) (last : N) :
  free_list_at h ty bsz cur (a :: rest) last = true ->
  cur = a /\ (a =? 0) = false /\ (a =? 1) = false /\
  exists counter bitmap next,
    slab_at h ty bsz a = Some (counter, bitmap, next) /\
    free_list_at h ty bsz next rest last = true.
Proof.
  cbn [free_list_at]. intros Hl.
  apply andb_prop in Hl. destruct Hl as [Hl Hrest].
  apply andb_prop in Hl. destruct Hl as [Hl H1].
  apply andb_prop in Hl. destruct Hl as [Hcur H0].
  apply N.eqb_eq in Hcur. apply negb_true_iff in H0, H1.
  destruct (slab_at h ty bsz a) as [[[c bm] next] |]; [| discriminate].
  repeat split; auto. exists c, bm, next. auto.
Qed.

Lemma free_list_at_cons (cur a : N) (rest : list N) (last : N) :
  free_list_at h ty bsz cur (a :: rest) last = true ->
  cur = a /\ (a =? 0) = false /\ (a =? 1) = false /\
  exists next,
    result (visit_slab h ty bsz a) = Returned next /\
    free_list_at h ty bsz next rest last = true.
Proof.
  intros Hl.
  destruct (free_list_at_inv _ _ _ _ Hl) as [Hc [H0 [H1 [c [bm [next [Hs Hr]]]]]]].
  repeat split; auto. exists next. split; [| exact Hr].
  eapply visit_slab_of_slab_at, Hs.
Qed.

(** What a returning visit contributes to the report: one slab entry, with
    or without a mismatch line, and three reads. *)
Lemma visit_returned_report (a next : N) :
  result (visit_slab h ty bsz a) = Returned next ->
  slab_addresses (printed (visit a)) = [a] /\
  List.length (slab_entries (printed (visit a))) = 1%nat /\
  corrupt_flag (printed (visit a)) = false /\
  List.length (reads (visit a)) = 3%nat.
Proof.
  intros H. unfold visit.
  destruct (visit_slab_returned_inv h ty bsz a next H) as [c [bm [Hc Hb]]].
  rewrite (visit_slab_trace h ty bsz a c bm Hc Hb).
  destruct (c =? count_set_bits bm); cbn; auto.
Qed.

Lemma slab_addresses_app (l1 l2 : list line) :
  slab_addresses (l1 ++ l2) = slab_addresses l1 ++ slab_addresses l2.
Proof. apply flat_map_app. Qed.

Lemma slab_entries_app (l1 l2 : list line) :
  slab_entries (l1 ++ l2) = slab_entries l1 ++ slab_entries l2.
Proof. apply filter_app. Qed.

Lemma corrupt_flag_app (l1 l2 : list line) :
  corrupt_flag (l1 ++ l2) = corrupt_flag l1 || corrupt_flag l2.
Proof. apply existsb_app. Qed.

(** The report of the slabs of a list, whatever its last link. *)
Lemma free_list_report (slabs : list N) : forall cur last,
  free_list_at h ty bsz cur slabs last = true ->
  let t := flat_map visit slabs in
  slab_addresses (printed t) = slabs /\
  List.length (slab_entries (printed t)) = List.length slabs /\
  corrupt_flag (printed t) = false /\
  List.length (reads t) = (3 * List.length slabs)%nat.
Proof.
  induction slabs as [| a rest IH]; intros cur last Hl; cbn [flat_map].
  - cbn. auto.
  - destruct (free_list_at_cons _ _ _ _ Hl) as [_ [_ [_ [next [Hv Hrest]]]]].
    destruct (visit_returned_report a next Hv) as [Ha [He [Hc Hr]]].
    destruct (IH next last Hrest) as [IHa [IHe [IHc IHr]]].
    rewrite printed_app, reads_app, slab_addresses_app, slab_entries_app,
      corrupt_flag_app, !length_app.
    rewrite Ha, He, Hc, Hr, IHa, IHe, IHc, IHr. cbn [List.length].
    repeat split; try reflexivity; lia.
Qed.

(** The lines printed for the slabs of a list. *)
Lemma free_list_lines (slabs : list N) : forall cur last,
  free_list_at h ty bsz cur slabs last = true ->
  printed (flat_map visit slabs) = flat_map (slab_report h ty bsz) slabs.
Proof.
  induction slabs as [| a rest IH]; intros cur last Hl; [reflexivity |].
  destruct (free_list_at_inv _ _ _ _ Hl)
    as [_ [_ [_ [c [bm [next [Hs Hrest]]]]]]].
  destruct (slab_at_reads _ _ _ _ Hs) as [Hc [Hb _]].
  cbn [flat_map]. rewrite printed_app, (IH next last Hrest). unfold visit.
  rewrite (visit_slab_trace h ty bsz a c bm Hc Hb).
  unfold slab_report. rewrite Hs, count_set_bits_bits_set.
  destruct (c =? bitmap_bits_set bm); reflexivity.
Qed.

(** The ranges read for the slabs of a list. *)
Lemma free_list_reads (slabs : list N) : forall cur last,
  free_list_at h ty bsz cur slabs last = true ->
  reads (flat_map visit slabs) = flat_map (slab_ranges ty bsz) slabs.
Proof.
  induction slabs as [| a rest IH]; intros cur last Hl; [reflexivity |].
  destruct (free_list_at_inv _ _ _ _ Hl)
    as [_ [_ [_ [c [bm [next [Hs Hrest]]]]]]].
  destruct (slab_at_reads _ _ _ _ Hs) as [Hc [Hb _]].
  cbn [flat_map]. rewrite reads_app, (IH next last Hrest). unfold visit.
  rewrite (visit_slab_trace h ty bsz a c bm Hc Hb).
  destruct (c =? count_set_bits bm); reflexivity.
Qed.

Lemma slab_loop_end (fuel : nat) (last : N) :
  last = 0 \/ last = 1 ->
  slab_loop fuel h ty bsz last
  = (if last =? 1 then [EvPrint LUnlinked] else [], Returned tt).
Proof. intros [-> | ->]; destruct fuel; reflexivity. Qed.

(** The loop on a list that ends in 0 or in 1: it visits the slabs in link
    order, then stops, with the marker line in the second case. *)
Lemma slab_loop_free_list (slabs : list N) : forall cur last fuel,
  free_list_at h ty bsz cur slabs last = true ->
  last = 0 \/ last = 1 ->
  (List.length slabs <= fuel)%nat ->
  slab_loop fuel h ty bsz cur
  = (flat_map visit slabs ++ (if last =? 1 then [EvPrint LUnlinked] else []),
     Returned tt).
Proof.
  induction slabs as [| a rest IH]; intros cur last fuel Hl Hlast Hfuel.
  - cbn in Hl. apply N.eqb_eq in Hl. subst cur. apply slab_loop_end, Hlast.
  - destruct (free_list_at_cons _ _ _ _ Hl) as [-> [H0 [H1 [next [Hv Hrest]]]]].
    destruct fuel as [| fuel']; [cbn in Hfuel; lia |].
    cbn [slab_loop]. rewrite H0, H1.
    rewrite (bind_returned _ _ _ Hv).
    rewrite (IH next last fuel' Hrest Hlast) by (cbn in Hfuel; lia).
    cbn [trace result fst snd flat_map]. rewrite <- app_assoc. reflexivity.
Qed.

Lemma print_slab_list_unfold (fuel : nat) (head : N) (metadata : SizeClassMeta) :
  type_SlabHeader h = Some ty ->
  bitmap_size metadata = bsz ->
  _print_slab_list fuel h head metadata
  = (EvLookupType name_SlabHeader :: trace (slab_loop fuel h ty bsz head),
     result (slab_loop fuel h ty bsz head)).
Proof.
  intros Hty Hb. unfold _print_slab_list, lookup_type. rewrite Hty, Hb. cbn.
  destruct (slab_loop fuel h ty bsz head); reflexivity.
Qed.

End Walk.

(** C3: a list of [L] slabs in memory whose last link is 0 is walked to its
    end: the walk returns, reports exactly the [L] slabs in link order,
    and does not flag the size class as corrupt.  Nothing is asked of the
    counters: the lines printed are, slab after slab, the entry of the
    slab, followed by the mismatch line when its stored counter differs
    from the bits set in its bitmap, so a mismatch does not stop the
    walk. *)
Theorem null_terminated_list_reported (h : gdb_host) (ty : SlabHeader_type)
    (metadata : SizeClassMeta) (head : N) (slabs : list N) (L fuel : nat)
    (Hty : type_SlabHeader h = Some ty)
    (Hlist : free_list_at h ty (bitmap_size metadata) head slabs 0 = true)
    (HL : List.length slabs = L)
    (Hfuel : (L <= fuel)%nat) :
  let run := _print_slab_list fuel h head metadata in
  result run = Returned tt /\
  slab_addresses (printed (trace run)) = slabs /\
  List.length (slab_entries (printed (trace run))) = L /\
  corrupt_flag (printed (trace run)) = false /\
  printed (trace run)
  = flat_map (slab_report h ty (bitmap_size metadata)) slabs.
Proof.
  intros run. subst run L.
  rewrite (print_slab_list_unfold h ty _ fuel head metadata Hty eq_refl).
  rewrite (slab_loop_free_list h ty _ slabs head 0 fuel Hlist (or_introl eq_refl) Hfuel).
  destruct (free_list_report h ty _ slabs head 0 Hlist) as [Ha [He [Hc _]]].
  cbn [trace result fst snd N.eqb printed]. rewrite app_nil_r.
  rewrite <- (free_list_lines h ty _ slabs head 0 Hlist). auto.
Qed.

Lemma null_terminated_list_reported_witness :
  let run := _print_slab_list 2 Scenario.two_slabs 8192 Scenario.meta64 in
  result run = Returned tt /\
  slab_addresses (printed (trace run)) = [8192; 12288] /\
  List.length (slab_entries (printed (trace run))) = 2%nat /\
  corrupt_flag (printed (trace run)) = false /\
  printed (trace run) = [LSlab 8192 4 3; LMismatch; LSlab 12288 3 3].
Proof.
  destruct (null_terminated_list_reported Scenario.two_slabs
              Scenario.slab_header_type Scenario.meta64 8192 [8192; 12288] 2 2)
    as [H1 [H2 [H3 [H4 H5]]]].
  - reflexivity.
  - vm_compute. reflexivity.
  - reflexivity.
  - lia.
  - cbn zeta.
    split; [exact H1 |]. split; [exact H2 |]. split; [exact H3 |].
    split; [exact H4 |]. rewrite H5. vm_compute. reflexivity.
Defined.

(** C2: when the [k]-th link of a list in memory (the head being the first)
    is the marker 1, the walk reports the [k - 1] slabs before it, prints
    the unlinked line last, returns without an exception, and has read
    nothing but the three ranges of each of these [k - 1] slabs.  A list
    with the terminator 0 in the [k]-th place is left unflagged. *)
Theorem unlinked_marker_stops_walk (h : gdb_host) (ty : SlabHeader_type)
    (metadata : SizeClassMeta) (head : N) (slabs : list N) (k fuel : nat)
    (Hty : type_SlabHeader h = Some ty)
    (Hk : (1 <= k)%nat)
    (Hlist : free_list_at h ty (bitmap_size metadata) head slabs 1 = true)
    (Hlen : List.length slabs = (k - 1)%nat)
    (Hfuel : (k - 1 <= fuel)%nat) :
  let run := _print_slab_list fuel h head metadata in
  result run = Returned tt /\
  slab_addresses (printed (trace run)) = slabs /\
  List.length (slab_entries (printed (trace run))) = (k - 1)%nat /\
  corrupt_flag (printed (trace run)) = true /\
  last (trace run) (EvPrint LBlank) = EvPrint LUnlinked /\
  reads (trace run) = flat_map (slab_ranges ty (bitmap_size metadata)) slabs /\
  List.length (reads (trace run)) = (3 * (k - 1))%nat /\
  (forall (h0 : gdb_host) (head0 : N) (slabs0 : list N),
     type_SlabHeader h0 = Some ty ->
     free_list_at h0 ty (bitmap_size metadata) head0 slabs0 0 = true ->
     List.length slabs0 = (k - 1)%nat ->
     corrupt_flag (printed (trace (_print_slab_list fuel h0 head0 metadata)))
     = false).
Proof.
  intros run. subst run.
  assert (H0 : forall (h0 : gdb_host) (head0 : N) (slabs0 : list N),
             type_SlabHeader h0 = Some ty ->
             free_list_at h0 ty (bitmap_size metadata) head0 slabs0 0 = true ->
             List.length slabs0 = (k - 1)%nat ->
             corrupt_flag
               (printed (trace (_print_slab_list fuel h0 head0 metadata)))
             = false).
  { intros h0 head0 slabs0 Hty0 Hl0 Hlen0.
    rewrite (print_slab_list_unfold h0 ty _ fuel head0 metadata Hty0 eq_refl).
    rewrite (slab_loop_free_list h0 ty _ slabs0 head0 0 fuel Hl0
               (or_introl eq_refl)) by lia.
    destruct (free_list_report h0 ty _ slabs0 head0 0 Hl0) as [_ [_ [Hc0 _]]].
    cbn [trace fst N.eqb printed]. rewrite app_nil_r. exact Hc0. }
  rewrite <- Hlen in Hfuel |- *.
  rewrite (print_slab_list_unfold h ty _ fuel head metadata Hty eq_refl).
  rewrite (slab_loop_free_list h ty _ slabs head 1 fuel Hlist (or_intror eq_refl) Hfuel).
  destruct (free_list_report h ty _ slabs head 1 Hlist) as [Ha [He [Hc Hr]]].
  pose proof (free_list_reads h ty _ slabs head 1 Hlist) as Hranges.
  cbn [trace result fst snd N.eqb Pos.eqb printed reads].
  rewrite printed_app, reads_app, slab_addresses_app, slab_entries_app,
    corrupt_flag_app, !length_app, Ha, He, Hc, Hr, Hranges.
  cbn [printed reads slab_addresses flat_map slab_entries filter is_slab_entry
       corrupt_flag existsb is_unlinked List.length orb app].
  rewrite !app_nil_r.
  split; [reflexivity |]. split; [reflexivity |]. split; [lia |].
  split; [reflexivity |]. split.
  - change (EvLookupType name_SlabHeader :: ?t ++ [?e])
      with ((EvLookupType name_SlabHeader :: t) ++ [e]).
    apply last_last.
  - split; [reflexivity |]. split; [lia |].
    rewrite Hlen. exact H0.
Qed.

Lemma unlinked_marker_stops_walk_witness :
  let run := _print_slab_list 2 Scenario.unlinked 8192 Scenario.meta64 in
  result run = Returned tt /\
  slab_addresses (printed (trace run)) = [8192; 12288] /\
  corrupt_flag (printed (trace run)) = true /\
  List.length (reads (trace run)) = 6%nat.
Proof.
  destruct (unlinked_marker_stops_walk Scenario.unlinked
              Scenario.slab_header_type Scenario.meta64 8192 [8192; 12288] 3 2)
    as [H1 [H2 [_ [H4 [_ [_ [H7 _]]]]]]].
  - reflexivity.
  - lia.
  - vm_compute. reflexivity.
  - reflexivity.
  - cbn. lia.
  - cbn zeta. auto.
Defined.

(** ** Properties of every event of a run *)

Section Everywhere.

Variable P : event -> Prop.

Lemma trace_bind {A B} (m : M A) (k : A -> M B) :
  trace (bind m k)
  = trace m ++ match result m with Returned a => trace (k a) | _ => [] end.
Proof.
  destruct m as [t [a | e |]]; cbn; rewrite ?app_nil_r; try reflexivity.
  destruct (k a); reflexivity.
Qed.

Lemma result_bind {A B} (m : M A) (k : A -> M B) :
  result (bind m k)
  = match result m with
    | Returned a => result (k a)
    | Raised e => Raised e
    | OutOfFuel => OutOfFuel
    end.
Proof.
  destruct m as [t [a | e |]]; cbn; try reflexivity.
  destruct (k a); reflexivity.
Qed.

Lemma all_bind {A B} (m : M A) (k : A -> M B) :
  Forall P (trace m) -> (forall a, Forall P (trace (k a))) ->
  Forall P (trace (bind m k)).
Proof.
  intros Hm Hk. rewrite trace_bind. apply Forall_app. split; [exact Hm |].
  destruct (result m); auto.
Qed.

Hypothesis P_read : forall addr len, P (EvReadMemory addr len).
Hypothesis P_lookup_type : forall name, P (EvLookupType name).
Hypothesis P_lookup_symbol : forall name, P (EvLookupSymbol name).
Hypothesis P_print : forall l, is_size_class_header l = false -> P (EvPrint l).

Variable h : gdb_host.

Lemma all_ret {A} (a : A) : Forall P (trace (ret a)).
Proof. constructor. Qed.

Lemma all_print (l : line) :
  is_size_class_header l = false -> Forall P (trace (print l)).
Proof. intros Hl. repeat constructor. apply P_print, Hl. Qed.

Lemma all_read_memory (addr len : N) : Forall P (trace (read_memory h addr len)).
Proof. rewrite read_memory_trace. repeat constructor. apply P_read. Qed.

Lemma all_value_int (addr : N) (f : field) : Forall P (trace (value_int h addr f)).
Proof. rewrite value_int_trace. repeat constructor. apply P_read. Qed.

Lemma all_read_u64 (addr : N) : Forall P (trace (read_u64 h addr)).
Proof. rewrite read_u64_trace. repeat constructor. apply P_read. Qed.

Lemma all_lookup_type {T} (name : string) (ty : option T) :
  Forall P (trace (lookup_type name ty)).
Proof. destruct ty; repeat constructor; apply P_lookup_type. Qed.

Lemma all_lookup_symbol (name : string) (sym : option N) :
  Forall P (trace (lookup_static_symbol_address name sym)).
Proof. destruct sym; repeat constructor; apply P_lookup_symbol. Qed.

Lemma all_visit_slab (ty : SlabHeader_type) (bsz a : N) :
  Forall P (trace (visit_slab h ty bsz a)).
Proof.
  unfold visit_slab.
  apply all_bind; [apply all_value_int | intros c].
  apply all_bind; [apply all_read_memory | intros bm].
  apply all_bind; [apply all_print; reflexivity | intros _].
  apply all_bind; [| intros _; apply all_read_u64].
  destruct (negb _); [apply all_print; reflexivity | apply all_ret].
Qed.

Lemma all_slab_loop (ty : SlabHeader_type) (bsz : N) (fuel : nat) : forall cur,
  Forall P (trace (slab_loop fuel h ty bsz cur)).
Proof.
  induction fuel as [| fuel IH]; intros cur; cbn [slab_loop];
    destruct (cur =? 0); try apply all_ret;
    destruct (cur =? 1); try (apply all_print; reflexivity).
  - constructor.
  - apply all_bind; [apply all_visit_slab | intros next; apply IH].
Qed.

Lemma all_print_slab_list (fuel : nat) (cur : N) (metadata : SizeClassMeta) :
  Forall P (trace (_print_slab_list fuel h cur metadata)).
Proof.
  unfold _print_slab_list.
  apply all_bind; [apply all_lookup_type | intros ty; apply all_slab_loop].
Qed.

Hypothesis P_header : forall size slab_order, P (EvPrint (LSizeClass size slab_order)).

Lemma all_dump_size_class (fuel : nat) (ty : SizeClass_type) (base : N) (i : nat) :
  Forall P (trace (dump_size_class fuel h ty base i)).
Proof.
  unfold dump_size_class.
  do 3 (apply all_bind; [apply all_value_int | intros ?]).
  apply all_bind; [apply all_read_u64 | intros head].
  apply all_bind; [repeat constructor; apply P_header | intros _].
  apply all_bind;
    [apply all_print_slab_list | intros _; apply all_print; reflexivity].
Qed.

Lemma all_for_each {A} (xs : list A) (body : A -> M unit) :
  (forall x, Forall P (trace (body x))) ->
  Forall P (trace (for_each xs body)).
Proof.
  intros Hb. induction xs as [| x rest IH]; cbn [for_each].
  - apply all_ret.
  - apply all_bind; auto.
Qed.

Lemma all_invoke (fuel : nat) : Forall P (trace (invoke fuel h)).
Proof.
  unfold invoke.
  apply all_bind; [apply all_lookup_type | intros ty].
  apply all_bind; [apply all_lookup_symbol | intros base].
  apply all_for_each. intros i. apply all_dump_size_class.
Qed.

End Everywhere.

Lemma memory_after_queries (t : list event) (mem : N -> option byte) :
  Forall (fun e => is_query e = true) t -> memory_after t mem = mem.
Proof.
  unfold memory_after. induction 1 as [| e t He _ IH]; cbn.
  - reflexivity.
  - destruct e; cbn in *; try discriminate; exact IH.
Qed.

(** C10: every step of an invocation is a type lookup, a symbol lookup, a
    memory read or a print, never a write to the inferior; the inferior's
    memory after the run is the memory before it, and the command keeps
    nothing from one invocation to the next, so that running it again gives
    the same events and the same outcome. *)
Theorem invoke_only_reads (fuel : nat) (h : gdb_host) :
  Forall (fun e => is_query e = true) (trace (invoke fuel h)) /\
  memory_after (trace (invoke fuel h)) (memory h) = memory h /\
  invoke fuel (with_memory h (memory_after (trace (invoke fuel h)) (memory h)))
  = invoke fuel h.
Proof.
  assert (Hq : Forall (fun e => is_query e = true) (trace (invoke fuel h)))
    by (apply all_invoke; reflexivity).
  split; [exact Hq |].
  rewrite (memory_after_queries _ _ Hq).
  split; [reflexivity |]. destruct h; reflexivity.
Qed.

(** ** The loop over the size classes *)

Section ForEach.

Context {A : Type}.
Variable body : A -> M unit.

Let events (x : A) : list event := trace (body x).

Lemma returned_tt (o : outcome unit) (u : unit) : o = Returned u -> o = Returned tt.
Proof. destruct u. auto. Qed.

(** The loop returns when every iteration does. *)
Lemma for_each_returns (xs : list A) :
  (forall x, In x xs -> result (body x) = Returned tt) ->
  for_each xs body = (flat_map events xs, Returned tt).
Proof.
  induction xs as [| x rest IH]; intros Hall; cbn [for_each flat_map].
  - reflexivity.
  - rewrite (bind_returned _ _ tt) by (apply Hall; left; reflexivity).
    rewrite IH by (intros y Hy; apply Hall; right; exact Hy).
    reflexivity.
Qed.

(** The loop stops at the first iteration that does not return. *)
Lemma for_each_stops (xs ys : list A) (x : A) :
  (forall y, In y xs -> result (body y) = Returned tt) ->
  result (body x) <> Returned tt ->
  for_each (xs ++ x :: ys) body = (flat_map events xs ++ events x, result (body x)).
Proof.
  induction xs as [| y rest IH]; intros Hall Hx; cbn [for_each flat_map app].
  - destruct (result (body x)) as [[] | e |] eqn:E.
    + congruence.
    + rewrite (bind_raised _ _ e E). reflexivity.
    + rewrite (bind_out_of_fuel _ _ E). reflexivity.
  - rewrite (bind_returned _ _ tt) by (apply Hall; left; reflexivity).
    rewrite IH; [| intros z Hz; apply Hall; right; exact Hz | exact Hx].
    cbn [trace result fst snd]. rewrite app_assoc. reflexivity.
Qed.

Lemma for_each_returned_inv (xs : list A) :
  result (for_each xs body) = Returned tt ->
  forall x, In x xs -> result (body x) = Returned tt.
Proof.
  induction xs as [| y rest IH]; intros Hr x Hin; [destruct Hin |].
  cbn [for_each] in Hr. apply bind_returned_inv in Hr.
  destruct Hr as [[] [Hy Hrest]].
  destruct Hin as [<- | Hin]; auto.
Qed.

(** In every case the iterations run are an initial segment of the list,
    and all of them but the last have returned. *)
Lemma for_each_prefix (xs : list A) :
  exists n : nat,
    (n <= List.length xs)%nat /\
    trace (for_each xs body) = flat_map events (firstn n xs) /\
    (forall x, In x (firstn (pred n) xs) -> result (body x) = Returned tt).
Proof.
  induction xs as [| x rest IH].
  - exists 0%nat. cbn. repeat split; auto. intros x [].
  - destruct IH as [n [Hn [Ht Hall]]].
    destruct (result (body x)) as [[] | e |] eqn:Hx.
    + exists (S n). cbn [for_each List.length firstn flat_map].
      rewrite (bind_returned _ _ tt Hx), Ht. cbn [trace fst].
      repeat split; [lia |].
      intros y Hy. destruct n as [| n']; [destruct Hy |].
      cbn [pred firstn] in Hy. destruct Hy as [<- | Hy]; auto.
    + exists 1%nat. cbn [for_each List.length firstn flat_map pred].
      rewrite (bind_raised _ _ e Hx), app_nil_r.
      repeat split; [lia |]. intros y [].
    + exists 1%nat. cbn [for_each List.length firstn flat_map pred].
      rewrite (bind_out_of_fuel _ _ Hx), app_nil_r.
      repeat split; [lia |]. intros y [].
Qed.

End ForEach.

Section Invoke.

Variable fuel : nat.
Variable h : gdb_host.
Variable ty : SizeClass_type.
Variable base : N.
Hypothesis Hty : type_SizeClass h = Some ty.
Hypothesis Hsym : symbol_ALLOCATOR h = Some base.

Let dump : nat -> M unit := dump_size_class fuel h ty base.

Lemma invoke_unfold :
  invoke fuel h
  = (prelude ++ trace (for_each (seq 0 SIZE_CLASS_COUNT) dump),
     result (for_each (seq 0 SIZE_CLASS_COUNT) dump)).
Proof.
  unfold invoke, lookup_type, lookup_static_symbol_address.
  rewrite Hty, Hsym. cbn -[for_each seq SIZE_CLASS_COUNT].
  fold dump. destruct (for_each _ dump). reflexivity.
Qed.

(** The first thing done for size class [i] is to read its [size] field in
    the [i]-th element of the table. *)
Lemma dump_size_class_first_read (i : nat) :
  exists rest,
    trace (dump i)
    = EvReadMemory
        (base + N.of_nat i * sc_sizeof ty + f_offset (sc_meta_size ty))
        (f_size (sc_meta_size ty)) :: rest.
Proof.
  unfold dump, dump_size_class. rewrite trace_bind, value_int_trace.
  unfold size_class_entry. cbn [app]. eauto.
Qed.

End Invoke.

Section Headers.

Lemma headers_app (t1 t2 : list event) : headers (t1 ++ t2) = headers t1 ++ headers t2.
Proof. unfold headers, size_class_headers. rewrite printed_app. apply filter_app. Qed.

Lemma headers_none (t : list event) : Forall not_header t -> headers t = [].
Proof.
  induction 1 as [| e t He _ IH]; [reflexivity |].
  destruct e; try exact IH.
  unfold headers in *. cbn in *. rewrite He. exact IH.
Qed.

Variable fuel : nat.
Variable h : gdb_host.

(** The walk of a list prints no size-class header. *)
Lemma print_slab_list_headers (cur : N) (metadata : SizeClassMeta) :
  headers (trace (_print_slab_list fuel h cur metadata)) = [].
Proof.
  apply headers_none. apply all_print_slab_list; cbn; auto.
Qed.

Variable ty : SizeClass_type.
Variable base : N.

(** A size class contributes at most one header, and exactly one when its
    report is complete. *)
Lemma dump_size_class_headers (i : nat) :
  (List.length (headers (trace (dump_size_class fuel h ty base i))) <= 1)%nat /\
  (result (dump_size_class fuel h ty base i) = Returned tt ->
   List.length (headers (trace (dump_size_class fuel h ty base i))) = 1%nat).
Proof.
  unfold dump_size_class.
  repeat (rewrite trace_bind, result_bind;
          match goal with
          | |- context [match result ?m with _ => _ end] => destruct (result m)
          end);
    rewrite ?headers_app, ?value_int_trace, ?read_u64_trace,
      ?print_slab_list_headers;
    cbn; split; (lia || discriminate || reflexivity).
Qed.

Lemma headers_for_each_le (xs : list nat) :
  (List.length (headers (flat_map (fun i => trace (dump_size_class fuel h ty base i)) xs))
   <= List.length xs)%nat.
Proof.
  induction xs as [| i rest IH]; cbn [flat_map List.length]; [cbn; lia |].
  rewrite headers_app, length_app.
  pose proof (proj1 (dump_size_class_headers i)). lia.
Qed.

Lemma headers_for_each_eq (xs : list nat) :
  (forall i, In i xs -> result (dump_size_class fuel h ty base i) = Returned tt) ->
  List.length (headers (flat_map (fun i => trace (dump_size_class fuel h ty base i)) xs))
  = List.length xs.
Proof.
  induction xs as [| i rest IH]; intros Hall; cbn [flat_map List.length];
    [reflexivity |].
  rewrite headers_app, length_app.
  rewrite (proj2 (dump_size_class_headers i)) by (apply Hall; left; reflexivity).
  rewrite IH by (intros j Hj; apply Hall; right; exact Hj). reflexivity.
Qed.

End Headers.

Section Runs.

Variable fuel : nat.
Variable h : gdb_host.
Variable ty : SizeClass_type.
Variable base : N.
Hypothesis Hty : type_SizeClass h = Some ty.
Hypothesis Hsym : symbol_ALLOCATOR h = Some base.

Let dump : nat -> M unit := dump_size_class fuel h ty base.

(** A run that stops in size class [i]. *)
Lemma invoke_stops (i : nat) :
  (i < SIZE_CLASS_COUNT)%nat ->
  (forall j, (j < i)%nat -> result (dump j) = Returned tt) ->
  result (dump i) <> Returned tt ->
  invoke fuel h
  = (prelude ++ flat_map (fun j => trace (dump j)) (seq 0 i) ++ trace (dump i),
     result (dump i)).
Proof.
  intros Hi Hbefore Hfail.
  rewrite (invoke_unfold fuel h ty base Hty Hsym).
  replace SIZE_CLASS_COUNT with (i + S (SIZE_CLASS_COUNT - S i))%nat by lia.
  rewrite seq_app. cbn [seq Nat.add].
  fold dump. rewrite for_each_stops; [reflexivity | | exact Hfail].
  intros j Hj. apply in_seq in Hj. apply Hbefore. lia.
Qed.

(** A run that returns. *)
Lemma invoke_returns :
  result (invoke fuel h) = Returned tt ->
  invoke fuel h
  = (prelude ++ flat_map (fun j => trace (dump j)) (seq 0 SIZE_CLASS_COUNT),
     Returned tt) /\
  (forall i, (i < SIZE_CLASS_COUNT)%nat -> result (dump i) = Returned tt).
Proof.
  rewrite (invoke_unfold fuel h ty base Hty Hsym). cbn [result snd].
  fold dump. intros Hr.
  pose proof (for_each_returned_inv dump _ Hr) as Hall.
  rewrite (for_each_returns dump _ Hall). split; [reflexivity |].
  intros i Hi. apply Hall. apply in_seq. lia.
Qed.

End Runs.

(** C1, as the code has it: the script catches no exception, so a lookup or
    read that fails while size class [i] is handled ends the whole run with
    that exception.  The events of the run are those of the classes before
    [i] followed by the events of class [i] up to the failure; nothing is
    done for a later class, and at most [i + 1] headers are printed. *)
Theorem read_failure_aborts_run (fuel : nat) (h : gdb_host)
    (ty : SizeClass_type) (base : N) (i : nat) (e : exn)
    (Hty : type_SizeClass h = Some ty)
    (Hsym : symbol_ALLOCATOR h = Some base)
    (Hi : (i < SIZE_CLASS_COUNT)%nat)
    (Hbefore : forall j, (j < i)%nat ->
       result (dump_size_class fuel h ty base j) = Returned tt)
    (Hfail : result (dump_size_class fuel h ty base i) = Raised e) :
  result (invoke fuel h) = Raised e /\
  trace (invoke fuel h)
  = prelude
      ++ flat_map (fun j => trace (dump_size_class fuel h ty base j)) (seq 0 i)
      ++ trace (dump_size_class fuel h ty base i) /\
  (List.length (headers (trace (invoke fuel h))) <= i + 1)%nat.
Proof.
  rewrite (invoke_stops fuel h ty base Hty Hsym i Hi Hbefore)
    by (rewrite Hfail; discriminate).
  cbn [result trace fst snd]. repeat split; [exact Hfail |].
  rewrite !headers_app, !length_app.
  pose proof (headers_for_each_le fuel h ty base (seq 0 i)) as H1.
  rewrite length_seq in H1.
  pose proof (proj1 (dump_size_class_headers fuel h ty base i)) as H2.
  cbn [prelude headers printed size_class_headers filter List.length]. lia.
Qed.

Lemma read_failure_aborts_run_witness :
  result (invoke 10 Scenario.unreadable) = Raised (MemoryError 20480 8) /\
  (List.length (headers (trace (invoke 10 Scenario.unreadable))) <= 1)%nat.
Proof.
  destruct (read_failure_aborts_run 10 Scenario.unreadable
              Scenario.size_class_type Scenario.table_base 0 (MemoryError 20480 8))
    as [H1 [_ H3]].
  - reflexivity.
  - reflexivity.
  - vm_compute. lia.
  - intros j Hj. lia.
  - vm_compute. reflexivity.
  - split; [exact H1 | exact H3].
Defined.

(** C1, as the claim has it, fails: the list head of size class 0 is
    unreadable, the traversal of class 0 raises, and size class 1 is never
    attempted; the only line printed is the header of class 0. *)
Lemma read_failure_hides_later_classes :
  result (dump_size_class 10 Scenario.unreadable Scenario.size_class_type
            Scenario.table_base 0) = Raised (MemoryError 20480 8) /\
  (0 < 1 < SIZE_CLASS_COUNT)%nat /\
  ~ attempted Scenario.size_class_type Scenario.table_base 1
      (trace (invoke 10 Scenario.unreadable)) /\
  printed (trace (invoke 10 Scenario.unreadable)) = [LSizeClass 16 0].
Proof.
  split; [vm_compute; reflexivity |].
  split; [vm_compute; lia |].
  split; [| vm_compute; reflexivity].
  intros H. vm_compute in H.
  repeat (destruct H as [H | H]; [discriminate H |]). exact H.
Qed.

Lemma firstn_seq_prefix (n : nat) : forall start len,
  (n <= len)%nat -> firstn n (seq start len) = seq start n.
Proof.
  induction n as [| n IH]; intros start len Hn; [reflexivity |].
  destruct len as [| len]; [lia |].
  cbn [seq firstn]. rewrite IH by lia. reflexivity.
Qed.

(** C8, as the code has it: the size classes are handled in ascending index
    order from 0, the entry of class [i] being read at the table address
    plus [i] times the size of an element.  A run that returns has handled
    all 25 of them and printed one header for each, in that order; a run
    that does not return has handled an initial segment of them. *)
Theorem size_classes_in_order (fuel : nat) (h : gdb_host)
    (ty : SizeClass_type) (base : N)
    (Hty : type_SizeClass h = Some ty)
    (Hsym : symbol_ALLOCATOR h = Some base) :
  let dump := dump_size_class fuel h ty base in
  SIZE_CLASS_COUNT = 25%nat /\
  (forall i, exists rest,
     trace (dump i)
     = EvReadMemory
         (base + N.of_nat i * sc_sizeof ty + f_offset (sc_meta_size ty))
         (f_size (sc_meta_size ty)) :: rest) /\
  (result (invoke fuel h) = Returned tt ->
   trace (invoke fuel h)
   = prelude ++ flat_map (fun i => trace (dump i)) (seq 0 SIZE_CLASS_COUNT) /\
   (forall i, (i < SIZE_CLASS_COUNT)%nat -> result (dump i) = Returned tt) /\
   List.length (headers (trace (invoke fuel h))) = SIZE_CLASS_COUNT) /\
  (exists n : nat,
     (n <= SIZE_CLASS_COUNT)%nat /\
     trace (invoke fuel h)
     = prelude ++ flat_map (fun i => trace (dump i)) (seq 0 n) /\
     (forall i, (S i < n)%nat -> result (dump i) = Returned tt)).
Proof.
  intros dump. subst dump. split; [reflexivity |].
  split; [intros i; apply dump_size_class_first_read |].
  split.
  - intros Hr.
    destruct (invoke_returns fuel h ty base Hty Hsym Hr) as [Hrun Hall].
    rewrite Hrun. cbn [trace fst]. repeat split; [exact Hall |].
    rewrite headers_app. cbn [prelude headers printed size_class_headers filter app].
    fold (headers (flat_map (fun i => trace (dump_size_class fuel h ty base i))
                     (seq 0 SIZE_CLASS_COUNT))).
    rewrite headers_for_each_eq, length_seq; [reflexivity |].
    intros i Hi. apply Hall. apply in_seq in Hi. lia.
  - rewrite (invoke_unfold fuel h ty base Hty Hsym). cbn [trace fst].
    destruct (for_each_prefix (dump_size_class fuel h ty base)
                (seq 0 SIZE_CLASS_COUNT)) as [n [Hn [Ht Hall]]].
    rewrite length_seq in Hn.
    exists n. split; [exact Hn |].
    rewrite firstn_seq_prefix in Ht by exact Hn.
    rewrite firstn_seq_prefix in Hall by lia.
    split; [rewrite Ht; reflexivity |].
    intros i Hi. apply Hall. apply in_seq. lia.
Qed.

Lemma size_classes_in_order_witness :
  result (invoke 10 Scenario.two_slabs) = Returned tt /\
  List.length (headers (trace (invoke 10 Scenario.two_slabs))) = 25%nat.
Proof.
  destruct (size_classes_in_order 10 Scenario.two_slabs
              Scenario.size_class_type Scenario.table_base)
    as [_ [_ [H _]]].
  - reflexivity.
  - reflexivity.
  - split; [vm_compute; reflexivity |].
    apply H. vm_compute. reflexivity.
Defined.

(** C8, as the claim has it, fails: the only slab of size class 0 links to
    an unreadable address, the run raises there, prints one header instead
    of 25, and never reads the entry of size class 1. *)
Lemma dangling_link_stops_run :
  result (invoke 10 Scenario.dangling) = Raised (MemoryError 36864 8) /\
  printed (trace (invoke 10 Scenario.dangling))
  = [LSizeClass 16 0; LSlab 8192 3 3] /\
  ~ attempted Scenario.size_class_type Scenario.table_base 1
      (trace (invoke 10 Scenario.dangling)) /\
  List.length (headers (trace (invoke 10 Scenario.dangling))) <> SIZE_CLASS_COUNT.
Proof.
  split; [vm_compute; reflexivity |].
  split; [vm_compute; reflexivity |].
  split; [| vm_compute; discriminate].
  intros H. vm_compute in H.
  repeat (destruct H as [H | H]; [discriminate H |]). exact H.
Qed.

(** ** Bits beyond the last slot *)

Section Padding.

Lemma bits_in_range_split (bitmap : list byte) (from n1 n2 : nat) :
  bits_in_range bitmap from (n1 + n2)
  = bits_in_range bitmap from n1 + bits_in_range bitmap (from + n1) n2.
Proof.
  unfold bits_in_range. rewrite seq_app, filter_app, length_app. lia.
Qed.

Lemma bitmap_bit_cons (x : byte) (rest : list byte) (i : nat) :
  bitmap_bit (x :: rest) (8 + i) = bitmap_bit rest i.
Proof.
  unfold bitmap_bit.
  replace (8 + i)%nat with (i + 1 * 8)%nat by lia.
  rewrite Nat.div_add by lia. rewrite Nat.Div0.mod_add.
  replace (i / 8 + 1)%nat with (S (i / 8)) by lia. reflexivity.
Qed.

Lemma bits_in_range_shift (x : byte) (rest : list byte) (n : nat) : forall s,
  bits_in_range (x :: rest) (8 + s) n = bits_in_range rest s n.
Proof.
  unfold bits_in_range.
  induction n as [| n IH]; intros s; [reflexivity |].
  cbn [seq filter]. rewrite bitmap_bit_cons.
  specialize (IH (S s)). replace (8 + S s)%nat with (S (8 + s)) in IH by lia.
  destruct (bitmap_bit rest s); cbn [List.length]; lia.
Qed.

Lemma bits_in_range_cons (x : byte) (rest : list byte) (n : nat) :
  bits_in_range (x :: rest) 8 n = bits_in_range rest 0 n.
Proof. apply (bits_in_range_shift x rest n 0). Qed.

Lemma bits_in_range_first_byte (x : byte) (rest : list byte) :
  bits_in_range (x :: rest) 0 8 = bits_set (Byte.to_N x).
Proof. destruct x; reflexivity. Qed.

(** [count_set_bits] counts every bit of every byte read. *)
Lemma count_set_bits_all_bits (bitmap : list byte) :
  count_set_bits bitmap = bits_in_range bitmap 0 (8 * List.length bitmap).
Proof.
  induction bitmap as [| x rest IH]; [reflexivity |].
  rewrite count_set_bits_cons, IH.
  replace (8 * List.length (x :: rest))%nat with (8 + 8 * List.length rest)%nat
    by (cbn [List.length]; lia).
  rewrite bits_in_range_split, bits_in_range_first_byte. cbn [Nat.add].
  rewrite bits_in_range_cons.
  unfold byte_count. rewrite count_int_bits_popcount, popcount_byte. reflexivity.
Qed.

Lemma count_set_bits_slots_padding (bitmap : list byte) (k : N) :
  (N.to_nat k <= 8 * List.length bitmap)%nat ->
  count_set_bits bitmap = slot_bits bitmap k + padding_bits bitmap k.
Proof.
  intros Hk. rewrite count_set_bits_all_bits. unfold slot_bits, padding_bits.
  rewrite <- (bits_in_range_split bitmap 0). f_equal. lia.
Qed.

Lemma fetch_length (mem : N -> option byte) (n : nat) : forall addr bs,
  fetch mem addr n = Some bs -> List.length bs = n.
Proof.
  induction n as [| n IH]; intros addr bs; cbn [fetch].
  - intros [= <-]. reflexivity.
  - destruct (mem addr); [| discriminate].
    destruct (fetch mem (addr + 1) n) eqn:E; [| discriminate].
    intros [= <-]. cbn. f_equal. eapply IH, E.
Qed.

Lemma read_memory_length (h : gdb_host) (addr len : N) (bs : list byte) :
  result (read_memory h addr len) = Returned bs ->
  List.length bs = N.to_nat len.
Proof.
  unfold read_memory. cbn.
  destruct (fetch (memory h) addr (N.to_nat len)) eqn:E; cbn; [| discriminate].
  intros [= <-]. eapply fetch_length, E.
Qed.

Lemma count_set_bits_all_ones (n : nat) :
  count_set_bits (repeat xff%byte n) = 8 * N.of_nat n.
Proof.
  induction n as [| n IH]; [reflexivity |].
  cbn [repeat]. rewrite count_set_bits_cons, IH.
  change (byte_count xff%byte) with 8. lia.
Qed.

End Padding.

Lemma padding_width (k : N) :
  k mod 8 <> 0 -> 0 < 8 * ((k + 7) / 8) - k < 8 /\ k < 8 * ((k + 7) / 8).
Proof.
  intros Hk. zify. Z.to_euclidean_division_equations. lia.
Qed.

Section WalkReads.

Variable h : gdb_host.
Variable ty : SlabHeader_type.
Variable metadata : SizeClassMeta.
Hypothesis Hty : type_SlabHeader h = Some ty.

Lemma bitmap_size_to_N (k : N) :
  objects_per_slab metadata = k ->
  bitmap_size metadata = Z.to_N (Qceiling (Z.of_N k # 8)).
Proof.
  intros Hk. unfold bitmap_size. rewrite Hk, <- bitmap_size_ceiling.
  symmetry. apply N2Z.id.
Qed.

(** The walk entered at a proper address starts with the visit of that
    address. *)
Lemma print_slab_list_first_visit (fuel : nat) (a : N) :
  a <> 0 -> a <> 1 ->
  exists rest,
    trace (_print_slab_list (S fuel) h a metadata)
    = EvLookupType name_SlabHeader
        :: trace (visit_slab h ty (bitmap_size metadata) a) ++ rest.
Proof.
  intros H0 H1.
  rewrite (print_slab_list_unfold h ty _ (S fuel) a metadata Hty eq_refl).
  cbn [slab_loop trace fst]. apply N.eqb_neq in H0, H1. rewrite H0, H1.
  rewrite trace_bind. eauto.
Qed.

(** A visit whose counter is readable goes on to read the bitmap. *)
Lemma visit_slab_bitmap_read (bsz a counter : N) :
  result (value_int h a (sh_allocated ty)) = Returned counter ->
  exists rest,
    reads (trace (visit_slab h ty bsz a))
    = (a + f_offset (sh_allocated ty), f_size (sh_allocated ty))
        :: (a + sh_sizeof ty, bsz) :: rest.
Proof.
  intros Hc. unfold visit_slab.
  rewrite trace_bind, value_int_trace, Hc. cbn beta iota.
  rewrite trace_bind, read_memory_trace. cbn [app reads]. eauto.
Qed.

End WalkReads.

(** C5: for a size class with [objects_per_slab = k] the walk reads the
    bitmap of every slab of the list with the length ceiling of [k / 8]
    (1 for [k = 1] and [k = 8], 2 for [k = 9]) and from the slab address
    plus the size of the slab header: the ranges read by the walk are, slab
    after slab, the counter, this bitmap range and the link.  The bitmap
    range is also the second read of a walk whose first slab has a readable
    counter, whatever the rest of the memory. *)
Theorem bitmap_length_and_place (h : gdb_host) (ty : SlabHeader_type)
    (metadata : SizeClassMeta) (head : N) (slabs : list N) (last k : N)
    (fuel : nat)
    (Hty : type_SlabHeader h = Some ty)
    (Hk : objects_per_slab metadata = k)
    (Hlist : free_list_at h ty (Z.to_N (Qceiling (Z.of_N k # 8))) head slabs last
             = true)
    (Hlast : last = 0 \/ last = 1)
    (Hfuel : (List.length slabs <= fuel)%nat) :
  let ceiling := Z.to_N (Qceiling (Z.of_N k # 8)) in
  Z.of_N (bitmap_size metadata) = Qceiling (Z.of_N k # 8) /\
  (k = 1 -> bitmap_size metadata = 1) /\
  (k = 8 -> bitmap_size metadata = 1) /\
  (k = 9 -> bitmap_size metadata = 2) /\
  reads (trace (_print_slab_list fuel h head metadata))
  = flat_map
      (fun a => [(a + f_offset (sh_allocated ty), f_size (sh_allocated ty));
                 (a + sh_sizeof ty, ceiling);
                 (a + sh_link_next ty, 8)]) slabs /\
  (forall a counter fuel',
     a <> 0 -> a <> 1 ->
     result (value_int h a (sh_allocated ty)) = Returned counter ->
     nth_error (reads (trace (_print_slab_list (S fuel') h a metadata))) 1
     = Some (a + sh_sizeof ty, ceiling)).
Proof.
  intros ceiling. subst ceiling.
  pose proof (bitmap_size_to_N metadata k Hk) as Hb. rewrite <- Hb in *.
  split; [unfold bitmap_size; rewrite Hk; apply bitmap_size_ceiling |].
  split; [intros ->; unfold bitmap_size; rewrite Hk; reflexivity |].
  split; [intros ->; unfold bitmap_size; rewrite Hk; reflexivity |].
  split; [intros ->; unfold bitmap_size; rewrite Hk; reflexivity |].
  split.
  - rewrite (print_slab_list_unfold h ty _ fuel head metadata Hty eq_refl).
    rewrite (slab_loop_free_list h ty _ slabs head last fuel Hlist Hlast Hfuel).
    cbn [trace fst reads]. rewrite reads_app.
    rewrite (free_list_reads h ty _ slabs head last Hlist).
    destruct Hlast as [-> | ->]; cbn; rewrite app_nil_r; reflexivity.
  - intros a counter fuel' H0 H1 Hc.
    destruct (print_slab_list_first_visit h ty metadata Hty fuel' a H0 H1)
      as [rest Ht].
    destruct (visit_slab_bitmap_read h ty (bitmap_size metadata) a counter Hc)
      as [rest' Hr].
    rewrite Ht. cbn [reads]. rewrite reads_app, Hr. reflexivity.
Qed.

Lemma bitmap_length_and_place_witness :
  bitmap_size Scenario.meta64 = 8 /\
  reads (trace (_print_slab_list 2 Scenario.two_slabs 8192 Scenario.meta64))
  = [(8192, 8); (8208, 8); (8200, 8); (12288, 8); (12304, 8); (12296, 8)].
Proof.
  split; [reflexivity |].
  destruct (bitmap_length_and_place Scenario.two_slabs Scenario.slab_header_type
              Scenario.meta64 8192 [8192; 12288] 0 64 2)
    as [_ [_ [_ [_ [H _]]]]].
  - reflexivity.
  - reflexivity.
  - vm_compute. reflexivity.
  - left. reflexivity.
  - cbn. lia.
  - rewrite H. reflexivity.
Defined.

(** C9: when [objects_per_slab = k] is not a multiple of 8, the bitmap
    bytes the walk reads for a slab hold [8 * ceil(k / 8) - k] bits after
    the [k] slot bits, and the count the walk prints in the slab's entry is
    the slot bits plus these padding bits, nothing being masked.  So a set
    padding bit makes the walk print the mismatch line although the slot
    bits agree with the stored counter, and with all bits set the printed
    count is above [k]. *)
Theorem padding_bits_are_counted (h : gdb_host) (ty : SlabHeader_type)
    (metadata : SizeClassMeta) (a k counter : N) (bitmap : list byte)
    (fuel : nat)
    (Hty : type_SlabHeader h = Some ty)
    (Hk : objects_per_slab metadata = k)
    (Hpad : k mod 8 <> 0)
    (Ha0 : a <> 0) (Ha1 : a <> 1)
    (Hcounter : result (value_int h a (sh_allocated ty)) = Returned counter)
    (Hbitmap : result (read_memory h (a + sh_sizeof ty)
                         (Z.to_N (Qceiling (Z.of_N k # 8))))
               = Returned bitmap) :
  let run := _print_slab_list (S fuel) h a metadata in
  0 < 8 * bitmap_size metadata - k < 8 /\
  (8 * List.length bitmap - N.to_nat k)%nat
  = N.to_nat (8 * bitmap_size metadata - k) /\
  count_set_bits bitmap = slot_bits bitmap k + padding_bits bitmap k /\
  nth_error (printed (trace run)) 0
  = Some (LSlab a counter (slot_bits bitmap k + padding_bits bitmap k)) /\
  (counter = slot_bits bitmap k -> 0 < padding_bits bitmap k ->
   nth_error (printed (trace run)) 1 = Some LMismatch) /\
  (Forall (fun x => x = xff%byte) bitmap ->
   k < slot_bits bitmap k + padding_bits bitmap k) /\
  (exists bitmap' : list byte,
     List.length bitmap' = N.to_nat (bitmap_size metadata) /\
     k < count_set_bits bitmap').
Proof.
  intros run. subst run.
  pose proof (bitmap_size_to_N metadata k Hk) as Hb. rewrite <- Hb in Hbitmap.
  pose proof (read_memory_length _ _ _ _ Hbitmap) as Hlen.
  destruct (print_slab_list_first_visit h ty metadata Hty fuel a Ha0 Ha1)
    as [rest Ht].
  rewrite Ht. cbn [printed]. rewrite printed_app.
  rewrite (visit_slab_trace h ty _ a counter bitmap Hcounter Hbitmap).
  unfold bitmap_size in *. rewrite Hk in *.
  destruct (padding_width k Hpad) as [Hw Hlt].
  assert (Hsum : count_set_bits bitmap = slot_bits bitmap k + padding_bits bitmap k)
    by (apply count_set_bits_slots_padding; lia).
  rewrite Hsum.
  split; [exact Hw |]. split; [lia |]. split; [reflexivity |].
  split; [reflexivity |]. split; [| split].
  - intros Hc Hp.
    destruct (N.eqb_spec counter (slot_bits bitmap k + padding_bits bitmap k));
      [lia | reflexivity].
  - intros Hall.
    assert (Hrep : bitmap = repeat xff%byte (List.length bitmap)).
    { apply Forall_eq_repeat. eapply Forall_impl; [| exact Hall].
      intros x Hx. symmetry. exact Hx. }
    rewrite <- Hsum, Hrep, count_set_bits_all_ones. lia.
  - exists (repeat xff%byte (N.to_nat ((k + 7) / 8))).
    rewrite repeat_length, count_set_bits_all_ones. split; [reflexivity | lia].
Qed.

Lemma padding_bits_are_counted_witness :
  let run := _print_slab_list 1 Scenario.padded 8192 Scenario.meta5 in
  slot_bits [x83]%byte 5 = 2 /\
  padding_bits [x83]%byte 5 = 1 /\
  firstn 2 (printed (trace run)) = [LSlab 8192 2 3; LMismatch].
Proof.
  destruct (padding_bits_are_counted Scenario.padded Scenario.slab_header_type
              Scenario.meta5 8192 5 2 [x83]%byte 0)
    as [_ [_ [_ [H4 [H5 _]]]]].
  - reflexivity.
  - reflexivity.
  - vm_compute. discriminate.
  - discriminate.
  - discriminate.
  - reflexivity.
  - reflexivity.
  - cbn zeta.
    split; [reflexivity |]. split; [reflexivity |].
    specialize (H5 eq_refl eq_refl).
    destruct (printed (trace (_print_slab_list 1 Scenario.padded 8192 Scenario.meta5)))
      as [| l1 [| l2 ls]]; cbn in H4, H5; try discriminate.
    injection H4 as ->. injection H5 as ->. reflexivity.
Defined.

(** * Further properties *)

(** ** Decoding 64-bit words *)

Section Words.

Lemma to_N_byte_of (n : N) : Byte.to_N (Scenario.byte_of n) = n mod 256.
Proof.
  unfold Scenario.byte_of.
  destruct (Byte.of_N (n mod 256)) as [x |] eqn:E.
  - apply Byte.to_of_N, E.
  - apply Byte.of_N_None_iff in E.
    pose proof (N.mod_upper_bound n 256). lia.
Qed.

Lemma from_bytes_little_bound (bs : list byte) :
  from_bytes_little bs < 256 ^ N.of_nat (List.length bs).
Proof.
  induction bs as [| x rest IH]; [cbn; lia |].
  cbn [from_bytes_little fold_right List.length].
  fold (from_bytes_little rest).
  rewrite Nat2N.inj_succ, N.pow_succ_r'.
  pose proof (Byte.to_N_bounded x). lia.
Qed.

(** Decoding undoes the little-endian encoding on [n] bytes, up to the
    bits that do not fit. *)
Lemma from_bytes_little_le_bytes (n : nat) : forall v,
  from_bytes_little (Scenario.le_bytes n v) = v mod 256 ^ N.of_nat n.
Proof.
  induction n as [| n IH]; intros v.
  - cbn. symmetry. apply N.mod_1_r.
  - cbn [Scenario.le_bytes from_bytes_little fold_right].
    fold (from_bytes_little (Scenario.le_bytes n (v / 256))).
    rewrite IH, to_N_byte_of, Nat2N.inj_succ, N.pow_succ_r'.
    rewrite N.Div0.mod_mul_r. reflexivity.
Qed.

End Words.

(** X1: [read_u64] makes one 8-byte read at [addr].  When the range is
    readable it returns the number whose 8-byte little-endian encoding is
    stored there, a number below 2^64; when not, it raises the memory
    error of that range. *)
Theorem read_u64_little_endian (h : gdb_host) (addr : N) :
  (forall v, result (read_u64 h addr) = Returned v -> v < 2 ^ 64) /\
  (forall v, v < 2 ^ 64 ->
     fetch (memory h) addr 8 = Some (Scenario.le_bytes 8 v) ->
     read_u64 h addr = ([EvReadMemory addr 8], Returned v)) /\
  (fetch (memory h) addr 8 = None ->
   read_u64 h addr = ([EvReadMemory addr 8], Raised (MemoryError addr 8))).
Proof.
  unfold read_u64, read_memory. change (N.to_nat 8) with 8%nat.
  split; [| split].
  - intros v. destruct (fetch (memory h) addr 8) as [bs |] eqn:E;
      cbn -[from_bytes_little]; [| discriminate].
    intros [= <-]. pose proof (from_bytes_little_bound bs) as Hb.
    rewrite (fetch_length _ _ _ _ E) in Hb. exact Hb.
  - intros v Hv ->. cbn -[from_bytes_little Scenario.le_bytes].
    rewrite from_bytes_little_le_bytes.
    change (256 ^ N.of_nat 8) with (2 ^ 64). rewrite N.mod_small by exact Hv.
    reflexivity.
  - intros ->. reflexivity.
Qed.

Lemma read_u64_little_endian_witness :
  read_u64 Scenario.two_slabs 8200 = ([EvReadMemory 8200 8], Returned 12288) /\
  read_u64 Scenario.unreadable 20480
  = ([EvReadMemory 20480 8], Raised (MemoryError 20480 8)).
Proof.
  destruct (read_u64_little_endian Scenario.two_slabs 8200) as [_ [H2 _]].
  destruct (read_u64_little_endian Scenario.unreadable 20480) as [_ [_ H3]].
  split.
  - apply H2; [vm_compute; reflexivity | vm_compute; reflexivity].
  - apply H3. vm_compute. reflexivity.
Defined.

(** ** Bit counting on arbitrary numbers *)

Lemma pos_popcount_size (p : positive) : pos_popcount p <= Npos (Pos.size p).
Proof.
  induction p as [q IH | q IH | ]; cbn [pos_popcount Pos.size]; lia.
Qed.

Lemma pos_popcount_pos (p : positive) : 0 < pos_popcount p.
Proof. induction p as [q IH | q IH | ]; cbn [pos_popcount]; lia. Qed.

(** X2: for every non-negative integer, not only for bytes, the loop of
    [count_int_bits] counts the 1 digits of the binary representation; the
    count is at most the bit length, and it is 0 only for 0. *)
Theorem count_int_bits_any_int (b : N) :
  count_int_bits b = popcount b /\
  count_int_bits b <= N.size b /\
  (count_int_bits b = 0 <-> b = 0).
Proof.
  rewrite count_int_bits_popcount.
  destruct b as [| p]; cbn [popcount N.size].
  - repeat split; reflexivity || lia.
  - pose proof (pos_popcount_size p). pose proof (pos_popcount_pos p).
    repeat split; lia.
Qed.

Lemma byte_count_le_8 (x : byte) : byte_count x <= 8.
Proof. destruct x; vm_compute; discriminate. Qed.

Lemma byte_count_zero (x : byte) : byte_count x = 0 <-> x = x00%byte.
Proof. destruct x; vm_compute; split; (reflexivity || discriminate). Qed.

Lemma byte_count_full (x : byte) : byte_count x = 8 <-> x = xff%byte.
Proof. destruct x; vm_compute; split; (reflexivity || discriminate). Qed.

(** X3: the count of a bitmap lies between 0 and 8 times its length; it is
    0 exactly when every byte is 0x00, and it reaches 8 times the length
    exactly when every byte is 0xff. *)
Theorem count_set_bits_bounds (bitmap : list byte) :
  count_set_bits bitmap <= 8 * N.of_nat (List.length bitmap) /\
  (count_set_bits bitmap = 0 <-> Forall (fun x => x = x00%byte) bitmap) /\
  (count_set_bits bitmap = 8 * N.of_nat (List.length bitmap)
   <-> Forall (fun x => x = xff%byte) bitmap).
Proof.
  induction bitmap as [| x rest [IHle [IH0 IH8]]].
  - cbn. repeat split; auto; lia.
  - rewrite count_set_bits_cons. cbn [List.length]. rewrite Nat2N.inj_succ.
    pose proof (byte_count_le_8 x) as Hx.
    split; [lia |]. split; split.
    + intros H. constructor.
      * apply byte_count_zero. lia.
      * apply IH0. lia.
    + intros H. inversion H as [| y l Hy Hl]; subst.
      apply IH0 in Hl. rewrite Hl. reflexivity.
    + intros H. constructor.
      * apply byte_count_full. lia.
      * apply IH8. lia.
    + intros H. inversion H as [| y l Hy Hl]; subst.
      apply IH8 in Hl. rewrite Hl. change (byte_count xff%byte) with 8. lia.
Qed.

(** ** Failures of a visit *)

(** X4: a slab is reported only when both its counter and its bitmap are
    readable: a failure of one of these reads ends the visit with nothing
    printed.  The link is read last, so a slab whose link is unreadable
    has its entry (and its mismatch line, if any) printed before the
    error is raised. *)
Theorem visit_slab_failures (h : gdb_host) (ty : SlabHeader_type)
    (bsz a : N) (e : exn) :
  (result (value_int h a (sh_allocated ty)) = Raised e ->
   result (visit_slab h ty bsz a) = Raised e /\
   printed (trace (visit_slab h ty bsz a)) = [] /\
   List.length (reads (trace (visit_slab h ty bsz a))) = 1%nat) /\
  (forall counter,
     result (value_int h a (sh_allocated ty)) = Returned counter ->
     result (read_memory h (a + sh_sizeof ty) bsz) = Raised e ->
     result (visit_slab h ty bsz a) = Raised e /\
     printed (trace (visit_slab h ty bsz a)) = [] /\
     List.length (reads (trace (visit_slab h ty bsz a))) = 2%nat) /\
  (forall counter bitmap,
     result (value_int h a (sh_allocated ty)) = Returned counter ->
     result (read_memory h (a + sh_sizeof ty) bsz) = Returned bitmap ->
     result (read_u64 h (a + sh_link_next ty)) = Raised e ->
     result (visit_slab h ty bsz a) = Raised e /\
     printed (trace (visit_slab h ty bsz a))
     = LSlab a counter (count_set_bits bitmap)
         :: (if counter =? count_set_bits bitmap then [] else [LMismatch])).
Proof.
  split; [| split].
  - intros Hc. unfold visit_slab.
    rewrite (bind_raised _ _ e Hc), value_int_trace. auto.
  - intros counter Hc Hb. unfold visit_slab.
    rewrite (bind_returned _ _ counter Hc), (bind_raised _ _ e Hb).
    rewrite value_int_trace, read_memory_trace. auto.
  - intros counter bitmap Hc Hb Hl.
    rewrite (visit_slab_trace h ty bsz a counter bitmap Hc Hb).
    split.
    + unfold visit_slab.
      rewrite result_bind, Hc. cbn beta iota.
      rewrite result_bind, Hb. cbn beta iota.
      rewrite result_bind. cbn [print emit result snd].
      rewrite result_bind.
      destruct (negb _); cbn [print emit ret result snd]; exact Hl.
    + destruct (counter =? count_set_bits bitmap); reflexivity.
Qed.

Lemma visit_slab_failures_witness :
  result (visit_slab Scenario.dangling Scenario.slab_header_type 8 36864)
  = Raised (MemoryError 36864 8) /\
  printed (trace (visit_slab Scenario.dangling Scenario.slab_header_type 8 36864))
  = [].
Proof.
  destruct (visit_slab_failures Scenario.dangling Scenario.slab_header_type
              8 36864 (MemoryError 36864 8)) as [H _].
  destruct H as [H1 [H2 _]]; [vm_compute; reflexivity |].
  split; [exact H1 | exact H2].
Defined.

(** ** Lists that do not end *)

Section Chains.

Variable h : gdb_host.
Variable ty : SlabHeader_type.
Variable bsz : N.

Let visit (a : N) : list event := trace (visit_slab h ty bsz a).

(** With enough fuel for the slabs of a chain, the loop visits them and
    goes on from the link that ends the chain with the fuel left. *)
Lemma slab_loop_chain (slabs : list N) : forall cur last fuel,
  free_list_at h ty bsz cur slabs last = true ->
  (List.length slabs <= fuel)%nat ->
  slab_loop fuel h ty bsz cur
  = (flat_map visit slabs
       ++ trace (slab_loop (fuel - List.length slabs) h ty bsz last),
     result (slab_loop (fuel - List.length slabs) h ty bsz last)).
Proof.
  induction slabs as [| a rest IH]; intros cur last fuel Hl Hfuel.
  - cbn in Hl. apply N.eqb_eq in Hl. subst cur.
    cbn [List.length flat_map app]. rewrite Nat.sub_0_r.
    destruct (slab_loop fuel h ty bsz last); reflexivity.
  - destruct (free_list_at_cons h ty bsz _ _ _ _ Hl) as [-> [H0 [H1 [next [Hv Hrest]]]]].
    destruct fuel as [| fuel']; [cbn in Hfuel; lia |].
    cbn [slab_loop]. rewrite H0, H1, (bind_returned _ _ _ Hv).
    rewrite (IH next last fuel' Hrest) by (cbn in Hfuel; lia).
    cbn [trace result fst snd flat_map List.length Nat.sub].
    rewrite <- app_assoc. reflexivity.
Qed.

(** With less fuel than slabs, the loop visits as many slabs as the fuel
    allows and stops there. *)
Lemma slab_loop_short (slabs : list N) : forall cur last fuel,
  free_list_at h ty bsz cur slabs last = true ->
  (fuel < List.length slabs)%nat ->
  slab_loop fuel h ty bsz cur = (flat_map visit (firstn fuel slabs), OutOfFuel).
Proof.
  induction slabs as [| a rest IH]; intros cur last fuel Hl Hfuel;
    [cbn in Hfuel; lia |].
  destruct (free_list_at_cons h ty bsz _ _ _ _ Hl) as [-> [H0 [H1 [next [Hv Hrest]]]]].
  destruct fuel as [| fuel']; cbn [slab_loop]; rewrite H0, H1; [reflexivity |].
  rewrite (bind_returned _ _ _ Hv).
  rewrite (IH next last fuel' Hrest) by (cbn in Hfuel; lia).
  reflexivity.
Qed.

(** The first [n] slabs of a chain form a chain. *)
Lemma free_list_at_firstn (slabs : list N) : forall cur last n,
  free_list_at h ty bsz cur slabs last = true ->
  exists mid, free_list_at h ty bsz cur (firstn n slabs) mid = true.
Proof.
  induction slabs as [| a rest IH]; intros cur last n Hl.
  - exists cur. rewrite firstn_nil. cbn. apply N.eqb_refl.
  - destruct n as [| n]; [exists cur; cbn; apply N.eqb_refl |].
    destruct (free_list_at_inv h ty bsz _ _ _ _ Hl)
      as [-> [H0 [H1 [c [bm [next [Hs Hrest]]]]]]].
    destruct (IH next last n Hrest) as [mid Hmid].
    exists mid. cbn [firstn free_list_at].
    rewrite N.eqb_refl, H0, H1, Hs. exact Hmid.
Qed.

Lemma entries_of_chain (slabs : list N) (cur last : N) :
  free_list_at h ty bsz cur slabs last = true ->
  List.length (slab_entries (printed (flat_map visit slabs))) = List.length slabs.
Proof.
  intros Hl. apply (free_list_report h ty bsz slabs cur last Hl).
Qed.

(** On a list that links back to its own head the loop uses up any amount
    of fuel, printing one more entry for each unit of it. *)
Lemma slab_loop_cycle (slabs : list N) (cur : N) :
  slabs <> [] ->
  free_list_at h ty bsz cur slabs cur = true ->
  forall fuel,
    result (slab_loop fuel h ty bsz cur) = OutOfFuel /\
    List.length (slab_entries (printed (trace (slab_loop fuel h ty bsz cur))))
    = fuel.
Proof.
  intros Hne Hl fuel.
  assert (Hlen : (0 < List.length slabs)%nat)
    by (destruct slabs; [congruence | cbn; lia]).
  induction fuel as [fuel IH] using lt_wf_ind.
  destruct (Nat.lt_ge_cases fuel (List.length slabs)) as [Hlt | Hge].
  - rewrite (slab_loop_short slabs cur cur fuel Hl Hlt).
    split; [reflexivity |]. cbn [trace fst].
    destruct (free_list_at_firstn slabs cur cur fuel Hl) as [mid Hmid].
    rewrite (entries_of_chain _ _ _ Hmid), length_firstn. lia.
  - rewrite (slab_loop_chain slabs cur cur fuel Hl Hge).
    destruct (IH (fuel - List.length slabs)%nat) as [IHr IHn]; [lia |].
    split; [exact IHr |]. cbn [trace fst].
    rewrite printed_app, slab_entries_app, length_app.
    rewrite (entries_of_chain _ _ _ Hl), IHn. lia.
Qed.

End Chains.

(** X5: the walk does not detect cycles.  When the links stored in the
    slabs of a list in memory lead back to its head, the walk ends under
    no bound on the number of iterations, and under the bound [fuel] it
    has printed [fuel] slab entries: the entries of the same slabs, over
    and over. *)
Theorem cyclic_list_never_ends (h : gdb_host) (ty : SlabHeader_type)
    (metadata : SizeClassMeta) (head : N) (slabs : list N) (fuel : nat)
    (Hty : type_SlabHeader h = Some ty)
    (Hne : slabs <> [])
    (Hcycle : free_list_at h ty (bitmap_size metadata) head slabs head = true) :
  result (_print_slab_list fuel h head metadata) = OutOfFuel /\
  List.length
    (slab_entries (printed (trace (_print_slab_list fuel h head metadata))))
  = fuel.
Proof.
  rewrite (print_slab_list_unfold h ty _ fuel head metadata Hty eq_refl).
  cbn [result trace fst snd printed].
  apply (slab_loop_cycle h ty _ slabs head Hne Hcycle).
Qed.

Section Unreadable.

Variable h : gdb_host.

Lemma value_int_result (addr : N) (f : field) :
  result (value_int h addr f)
  = match fetch (memory h) (addr + f_offset f) (N.to_nat (f_size f)) with
    | Some bs => Returned (from_bytes_little bs)
    | None => Raised (MemoryError (addr + f_offset f) (f_size f))
    end.
Proof.
  unfold value_int, read_memory. cbn. destruct (fetch _ _ _); reflexivity.
Qed.

Lemma read_memory_result (addr len : N) :
  result (read_memory h addr len)
  = match fetch (memory h) addr (N.to_nat len) with
    | Some bs => Returned bs
    | None => Raised (MemoryError addr len)
    end.
Proof. unfold read_memory. cbn. destruct (fetch _ _ _); reflexivity. Qed.

Lemma read_u64_result (addr : N) :
  result (read_u64 h addr)
  = match fetch (memory h) addr 8 with
    | Some bs => Returned (from_bytes_little bs)
    | None => Raised (MemoryError addr 8)
    end.
Proof.
  unfold read_u64, read_memory. change (N.to_nat 8) with 8%nat.
  destruct (fetch (memory h) addr 8); reflexivity.
Qed.

(** The visit of a slab with an unreadable range raises the memory error
    of one of its three ranges. *)
Lemma visit_slab_unreadable (ty : SlabHeader_type) (bsz a : N) :
  slab_at h ty bsz a = None ->
  exists r,
    In r (slab_ranges ty bsz a) /\
    result (visit_slab h ty bsz a) = Raised (MemoryError (fst r) (snd r)).
Proof.
  unfold slab_at, visit_slab.
  rewrite result_bind, value_int_result.
  destruct (fetch (memory h) (a + f_offset _) _) as [c |];
    [| intros _; eexists; split; [left; reflexivity | reflexivity]].
  rewrite result_bind, read_memory_result.
  destruct (fetch (memory h) (a + sh_sizeof ty) _) as [bm |];
    [| intros _; eexists; split; [right; left; reflexivity | reflexivity]].
  rewrite result_bind. cbn [print emit result snd].
  rewrite result_bind.
  assert (Hif : forall b : bool,
             result (if b then print LMismatch else ret tt) = Returned tt)
    by (intros []; reflexivity).
  rewrite Hif, read_u64_result.
  destruct (fetch (memory h) (a + sh_link_next ty) 8) as [l |];
    [discriminate |].
  intros _. eexists. split; [right; right; left; reflexivity | reflexivity].
Qed.

(** No visit prints the unlinked line. *)
Lemma visit_slab_no_unlinked (ty : SlabHeader_type) (bsz a : N) :
  corrupt_flag (printed (trace (visit_slab h ty bsz a))) = false.
Proof.
  assert (Hall : Forall
            (fun ev => match ev with
                       | EvPrint l => is_unlinked l = false
                       | _ => True
                       end)
            (trace (visit_slab h ty bsz a))).
  { unfold visit_slab.
    apply all_bind; [rewrite value_int_trace; repeat constructor | intros c].
    apply all_bind; [rewrite read_memory_trace; repeat constructor | intros bm].
    apply all_bind; [repeat constructor | intros _].
    apply all_bind;
      [| intros _; rewrite read_u64_trace; repeat constructor].
    destruct (negb _); repeat constructor. }
  induction Hall as [| ev t Hev _ IH]; [reflexivity |].
  destruct ev; try exact IH.
  cbn [printed corrupt_flag existsb]. rewrite Hev. exact IH.
Qed.

End Unreadable.

(** X6: a list with an unreadable slab.  When the links of the slabs
    [slabs] in memory lead to an address, neither 0 nor 1, at which the
    counter, the bitmap or the link is unreadable, the walk raises the
    memory error of one of these three ranges after reporting [slabs] in
    link order, and prints no unlinked line. *)
Theorem unreadable_slab_stops_walk (h : gdb_host) (ty : SlabHeader_type)
    (metadata : SizeClassMeta) (head bad : N) (slabs : list N) (fuel : nat)
    (Hty : type_SlabHeader h = Some ty)
    (Hlist : free_list_at h ty (bitmap_size metadata) head slabs bad = true)
    (H0 : bad <> 0) (H1 : bad <> 1)
    (Hbad : slab_at h ty (bitmap_size metadata) bad = None)
    (Hfuel : (List.length slabs < fuel)%nat) :
  let run := _print_slab_list fuel h head metadata in
  (exists r,
     In r (slab_ranges ty (bitmap_size metadata) bad) /\
     result run = Raised (MemoryError (fst r) (snd r))) /\
  (exists tail,
     printed (trace run)
     = flat_map (slab_report h ty (bitmap_size metadata)) slabs ++ tail) /\
  firstn (List.length slabs) (slab_addresses (printed (trace run))) = slabs /\
  corrupt_flag (printed (trace run)) = false.
Proof.
  intros run. subst run.
  destruct (visit_slab_unreadable h ty _ bad Hbad) as [r [Hin Hr]].
  rewrite (print_slab_list_unfold h ty _ fuel head metadata Hty eq_refl).
  rewrite (slab_loop_chain h ty _ slabs head bad fuel Hlist) by lia.
  destruct (fuel - List.length slabs)%nat as [| fuel'] eqn:Ef; [lia |].
  cbn [slab_loop].
  apply N.eqb_neq in H0, H1. rewrite H0, H1.
  rewrite (bind_raised _ _ _ Hr).
  cbn [trace result fst snd printed].
  destruct (free_list_report h ty _ slabs head bad Hlist) as [Ha [_ [Hc _]]].
  split; [exists r; split; [exact Hin | reflexivity] |].
  rewrite printed_app, slab_addresses_app, corrupt_flag_app, Ha, Hc.
  rewrite (free_list_lines h ty _ slabs head bad Hlist).
  split; [eexists; reflexivity |].
  split.
  - rewrite firstn_app, Nat.sub_diag, firstn_all, firstn_O, app_nil_r.
    reflexivity.
  - cbn [orb]. apply visit_slab_no_unlinked.
Qed.

Lemma cyclic_list_never_ends_witness :
  result (_print_slab_list 5 Scenario.cyclic 8192 Scenario.meta64) = OutOfFuel /\
  List.length
    (slab_entries
       (printed (trace (_print_slab_list 5 Scenario.cyclic 8192 Scenario.meta64))))
  = 5%nat.
Proof.
  apply (cyclic_list_never_ends Scenario.cyclic Scenario.slab_header_type
           Scenario.meta64 8192 [8192; 12288] 5).
  - reflexivity.
  - discriminate.
  - vm_compute. reflexivity.
Defined.

Lemma unreadable_slab_stops_walk_witness :
  let run := _print_slab_list 2 Scenario.dangling 8192 Scenario.meta64 in
  firstn 1 (slab_addresses (printed (trace run))) = [8192] /\
  corrupt_flag (printed (trace run)) = false.
Proof.
  destruct (unreadable_slab_stops_walk Scenario.dangling
              Scenario.slab_header_type Scenario.meta64 8192 36864 [8192] 2)
    as [_ [_ [H3 H4]]].
  - reflexivity.
  - vm_compute. reflexivity.
  - discriminate.
  - discriminate.
  - vm_compute. reflexivity.
  - cbn. lia.
  - cbn zeta. split; [exact H3 | exact H4].
Defined.

(** ** The report of one size class *)

Section OneClass.

Variable fuel : nat.
Variable h : gdb_host.
Variable ty : SizeClass_type.
Variable base : N.
Variable i : nat.

Let e : N := size_class_entry ty base i.

(** Once the entry is decoded, the header is printed, the list is walked,
    and the blank line closes the report if the walk returned. *)
Lemma dump_size_class_decoded (metadata : SizeClassMeta) (head : N) :
  read_descriptor h ty e = Some (metadata, head) ->
  dump_size_class fuel h ty base i
  = (descriptor_reads ty e
       ++ EvPrint (LSizeClass (size metadata) (slab_order metadata))
       :: trace (_print_slab_list fuel h head metadata)
       ++ fst (after_walk (_print_slab_list fuel h head metadata)),
     snd (after_walk (_print_slab_list fuel h head metadata))).
Proof.
  unfold read_descriptor.
  destruct (result (value_int h e (sc_meta_size ty))) as [s | |] eqn:Hs;
    try discriminate.
  destruct (result (value_int h e (sc_meta_slab_order ty))) as [o | |] eqn:Ho;
    try discriminate.
  destruct (result (value_int h e (sc_meta_objects_per_slab ty))) as [k | |] eqn:Hk;
    try discriminate.
  destruct (result (read_u64 h (e + sc_partial_slabs_head ty))) as [hd | |] eqn:Hh;
    try discriminate.
  intros [= <- <-].
  unfold dump_size_class. fold e.
  rewrite (bind_returned _ _ _ Hs), (bind_returned _ _ _ Ho),
    (bind_returned _ _ _ Hk), (bind_returned _ _ _ Hh).
  rewrite !value_int_trace, read_u64_trace.
  cbn [trace result fst snd app size slab_order descriptor_reads].
  set (w := _print_slab_list fuel h hd _).
  unfold after_walk.
  destruct w as [t [[] | x |]]; cbn; rewrite ?app_nil_r; reflexivity.
Qed.

(** An entry that does not decode: the failing read raises, and nothing
    is printed for the size class. *)
Lemma undecoded_entry_raises :
  read_descriptor h ty e = None ->
  printed (trace (dump_size_class fuel h ty base i)) = [] /\
  exists addr len, result (dump_size_class fuel h ty base i)
                   = Raised (MemoryError addr len).
Proof.
  assert (Hv : forall a f,
             (exists v, result (value_int h a f) = Returned v) \/
             result (value_int h a f)
             = Raised (MemoryError (a + f_offset f) (f_size f))).
  { intros a f. unfold value_int, read_memory. cbn.
    destruct (fetch _ _ _); cbn; eauto. }
  assert (Hu : forall a,
             (exists v, result (read_u64 h a) = Returned v) \/
             result (read_u64 h a) = Raised (MemoryError a 8)).
  { intros a. unfold read_u64, read_memory. cbn.
    destruct (fetch _ _ _); cbn; eauto. }
  unfold read_descriptor, dump_size_class. fold e.
  destruct (Hv e (sc_meta_size ty)) as [[s Hs] | Hs];
    rewrite trace_bind, result_bind, Hs, value_int_trace; cbn beta iota;
    [| intros _; split; [reflexivity | eauto]].
  destruct (Hv e (sc_meta_slab_order ty)) as [[o Ho] | Ho];
    rewrite trace_bind, result_bind, Ho, value_int_trace; cbn beta iota;
    [| intros _; split; [reflexivity | eauto]].
  destruct (Hv e (sc_meta_objects_per_slab ty)) as [[k Hk] | Hk];
    rewrite trace_bind, result_bind, Hk, value_int_trace; cbn beta iota;
    [| intros _; split; [reflexivity | eauto]].
  destruct (Hu (e + sc_partial_slabs_head ty)) as [[hd Hh] | Hh];
    rewrite trace_bind, result_bind, Hh, read_u64_trace; cbn beta iota;
    [discriminate | intros _; split; [reflexivity | eauto]].
Qed.

End OneClass.

(** X7: a table entry that cannot be read.  When one of the three [meta]
    fields or the list head of size class [i] is unreadable, the memory
    error is raised before anything is printed for this size class, not
    even its header. *)
Theorem dump_size_class_undecoded (fuel : nat) (h : gdb_host)
    (ty : SizeClass_type) (base : N) (i : nat)
    (Hentry : read_descriptor h ty (size_class_entry ty base i) = None) :
  printed (trace (dump_size_class fuel h ty base i)) = [] /\
  exists addr len,
    result (dump_size_class fuel h ty base i) = Raised (MemoryError addr len).
Proof. apply undecoded_entry_raises, Hentry. Qed.

Lemma dump_size_class_undecoded_witness :
  printed (trace (dump_size_class 10 Scenario.unmapped Scenario.size_class_type
                    Scenario.table_base 3)) = [].
Proof.
  apply (dump_size_class_undecoded 10 Scenario.unmapped Scenario.size_class_type
           Scenario.table_base 3).
  vm_compute. reflexivity.
Defined.

(** ** Missing debug information *)

(** X8: when the debugger does not know the type of a size class, or the
    allocator symbol, the run raises at once: no memory is read and nothing
    is printed. *)
Theorem unresolved_lookup_aborts (fuel : nat) (h : gdb_host) :
  (type_SizeClass h = None ->
   invoke fuel h = ([EvLookupType name_SizeClass], Raised (GdbError name_SizeClass))) /\
  (type_SizeClass h <> None -> symbol_ALLOCATOR h = None ->
   invoke fuel h = (prelude, Raised (AttributeError name_ALLOCATOR))) /\
  (type_SizeClass h = None \/ symbol_ALLOCATOR h = None ->
   reads (trace (invoke fuel h)) = [] /\ printed (trace (invoke fuel h)) = []).
Proof.
  unfold invoke, lookup_type, lookup_static_symbol_address.
  destruct (type_SizeClass h) as [ty |]; destruct (symbol_ALLOCATOR h) as [base |];
    (split; [| split]); try (intros; reflexivity); try discriminate;
    try congruence; try (intros; split; reflexivity).
  intros [H | H]; discriminate.
Qed.

Lemma unresolved_lookup_aborts_witness :
  invoke 10 Scenario.stripped
  = ([EvLookupType name_SizeClass], Raised (GdbError name_SizeClass)).
Proof.
  apply (unresolved_lookup_aborts 10 Scenario.stripped). reflexivity.
Defined.

(** X9: the type of a slab header is looked up inside the walk, once per
    size class and after the header line.  When the debugger does not know
    it, the run still decodes the entry of size class 0 and prints its
    header; then it raises, without having read any slab, and that header
    is all the output. *)
Theorem unresolved_slab_header_type (fuel : nat) (h : gdb_host)
    (ty : SizeClass_type) (base : N) (metadata : SizeClassMeta) (head : N)
    (Hty : type_SizeClass h = Some ty)
    (Hsym : symbol_ALLOCATOR h = Some base)
    (Hsh : type_SlabHeader h = None)
    (Hentry : read_descriptor h ty (size_class_entry ty base 0)
              = Some (metadata, head)) :
  invoke fuel h
  = (prelude ++ descriptor_reads ty (size_class_entry ty base 0)
       ++ [EvPrint (LSizeClass (size metadata) (slab_order metadata));
           EvLookupType name_SlabHeader],
     Raised (GdbError name_SlabHeader)) /\
  printed (trace (invoke fuel h))
  = [LSizeClass (size metadata) (slab_order metadata)].
Proof.
  assert (Hw : _print_slab_list fuel h head metadata
               = ([EvLookupType name_SlabHeader], Raised (GdbError name_SlabHeader))).
  { unfold _print_slab_list, lookup_type. rewrite Hsh. reflexivity. }
  pose proof (dump_size_class_decoded fuel h ty base 0 metadata head Hentry) as Hd.
  rewrite Hw in Hd. cbn [after_walk trace result fst snd app] in Hd.
  assert (Hrun : invoke fuel h
                 = (prelude ++ trace (dump_size_class fuel h ty base 0),
                    result (dump_size_class fuel h ty base 0))).
  { rewrite (invoke_stops fuel h ty base Hty Hsym 0).
    - reflexivity.
    - unfold SIZE_CLASS_COUNT. lia.
    - intros j Hj. lia.
    - rewrite Hd. discriminate. }
  rewrite Hrun, Hd. cbn [trace result fst snd].
  split; [reflexivity |].
  rewrite !printed_app. reflexivity.
Qed.

Lemma unresolved_slab_header_type_witness :
  printed (trace (invoke 10 Scenario.headerless)) = [LSizeClass 16 0].
Proof.
  apply (unresolved_slab_header_type 10 Scenario.headerless
           Scenario.size_class_type Scenario.table_base Scenario.meta64 8192);
    reflexivity.
Defined.

(** ** Sound heaps *)

Section SoundClass.

Variable fuel : nat.
Variable h : gdb_host.
Variable ty : SizeClass_type.
Variable sh : SlabHeader_type.
Variable base : N.
Hypothesis Hsh : type_SlabHeader h = Some sh.

(** The full report of a sound size class. *)
Lemma dump_sound_class (i : nat) (slabs : list N) (last : N) :
  sound_class h ty sh base i slabs last = true ->
  (List.length slabs <= fuel)%nat ->
  exists metadata head,
    read_descriptor h ty (size_class_entry ty base i) = Some (metadata, head) /\
    dump_size_class fuel h ty base i
    = (descriptor_reads ty (size_class_entry ty base i)
         ++ EvPrint (LSizeClass (size metadata) (slab_order metadata))
         :: EvLookupType name_SlabHeader
         :: flat_map (fun a => trace (visit_slab h sh (bitmap_size metadata) a)) slabs
         ++ (if last =? 1 then [EvPrint LUnlinked] else [])
         ++ [EvPrint LBlank],
       Returned tt) /\
    free_list_at h sh (bitmap_size metadata) head slabs last = true.
Proof.
  unfold sound_class. intros Hs Hfuel.
  destruct (read_descriptor h ty (size_class_entry ty base i))
    as [[metadata head] |] eqn:Hd; [| discriminate].
  apply andb_prop in Hs. destruct Hs as [Hl Hlast].
  assert (Hlast' : last = 0 \/ last = 1).
  { apply orb_prop in Hlast. destruct Hlast as [H | H]; apply N.eqb_eq in H; auto. }
  exists metadata, head. split; [reflexivity |]. split; [| exact Hl].
  rewrite (dump_size_class_decoded fuel h ty base i metadata head Hd).
  rewrite (print_slab_list_unfold h sh _ fuel head metadata Hsh eq_refl).
  rewrite (slab_loop_free_list h sh _ slabs head last fuel Hl Hlast' Hfuel).
  cbn [after_walk trace result fst snd].
  rewrite <- app_comm_cons, <- app_assoc. reflexivity.
Qed.

End SoundClass.

(** X10: the report of one sound size class.  When the entry of size class
    [i] decodes and its list in memory consists of slabs ending in 0 or 1,
    the report of the class is complete: the header with the decoded size
    and slab order, for each slab in link order its entry and, if its
    counter differs from the bits set in its bitmap, the mismatch line,
    then the unlinked line if the list ends in 1, and a blank line. *)
Theorem sound_class_report (fuel : nat) (h : gdb_host) (ty : SizeClass_type)
    (sh : SlabHeader_type) (base : N) (i : nat) (slabs : list N) (last : N)
    (Hsh : type_SlabHeader h = Some sh)
    (Hsound : sound_class h ty sh base i slabs last = true)
    (Hfuel : (List.length slabs <= fuel)%nat) :
  exists metadata head,
    read_descriptor h ty (size_class_entry ty base i) = Some (metadata, head) /\
    result (dump_size_class fuel h ty base i) = Returned tt /\
    printed (trace (dump_size_class fuel h ty base i))
    = LSizeClass (size metadata) (slab_order metadata)
        :: flat_map (slab_report h sh (bitmap_size metadata)) slabs
        ++ (if last =? 1 then [LUnlinked] else [])
        ++ [LBlank] /\
    slab_addresses (printed (trace (dump_size_class fuel h ty base i))) = slabs.
Proof.
  destruct (dump_sound_class fuel h ty sh base Hsh i slabs last Hsound Hfuel)
    as [metadata [head [Hd [Hrun Hl]]]].
  destruct (free_list_report h sh _ slabs head last Hl) as [Ha _].
  pose proof (free_list_lines h sh _ slabs head last Hl) as Hlines.
  exists metadata, head. split; [exact Hd |].
  rewrite Hrun. cbn [trace result fst snd].
  split; [reflexivity |].
  set (visits := flat_map
                   (fun a => trace (visit_slab h sh (bitmap_size metadata) a)) slabs)
    in *.
  set (mark := if last =? 1 then [EvPrint LUnlinked] else []).
  assert (Hmark : printed mark = (if last =? 1 then [LUnlinked] else []) /\
                  slab_addresses (printed mark) = [])
    by (subst mark; destruct (last =? 1); split; reflexivity).
  destruct Hmark as [Hm1 Hm2].
  change (EvPrint (LSizeClass (size metadata) (slab_order metadata))
            :: EvLookupType name_SlabHeader :: visits ++ mark ++ [EvPrint LBlank])
    with ([EvPrint (LSizeClass (size metadata) (slab_order metadata));
           EvLookupType name_SlabHeader] ++ visits ++ mark ++ [EvPrint LBlank]).
  rewrite !printed_app, !slab_addresses_app.
  rewrite Ha, Hm2, Hm1, Hlines.
  cbn [descriptor_reads printed slab_addresses flat_map app].
  rewrite app_nil_r. split; reflexivity.
Qed.

Lemma sound_class_report_witness :
  result (dump_size_class 2 Scenario.unlinked Scenario.size_class_type
            Scenario.table_base 0) = Returned tt /\
  printed (trace (dump_size_class 2 Scenario.unlinked Scenario.size_class_type
                    Scenario.table_base 0))
  = [LSizeClass 16 0; LSlab 8192 3 3; LSlab 12288 3 3; LUnlinked; LBlank].
Proof.
  destruct (sound_class_report 2 Scenario.unlinked Scenario.size_class_type
              Scenario.slab_header_type Scenario.table_base 0 [8192; 12288] 1)
    as [metadata [head [_ [H1 _]]]].
  - reflexivity.
  - vm_compute. reflexivity.
  - cbn. lia.
  - split; [exact H1 | vm_compute; reflexivity].
Defined.

Section SoundHeap.

Variable fuel : nat.
Variable h : gdb_host.
Variable ty : SizeClass_type.
Variable sh : SlabHeader_type.
Variable base : N.
Variable lists : nat -> list N.
Variable lasts : nat -> N.
Hypothesis Hsh : type_SlabHeader h = Some sh.

(** The visits of the slabs of a chain print slab entries and mismatch
    lines only. *)
Lemma chain_lines (bsz : N) (slabs : list N) : forall cur last,
  free_list_at h sh bsz cur slabs last = true ->
  Forall slab_line
    (printed (flat_map (fun a => trace (visit_slab h sh bsz a)) slabs)).
Proof.
  induction slabs as [| a rest IH]; intros cur last Hl; [constructor |].
  destruct (free_list_at_cons h sh bsz _ _ _ _ Hl) as [_ [_ [_ [next [Hv Hrest]]]]].
  cbn [flat_map]. rewrite printed_app. apply Forall_app. split; [| eauto].
  destruct (visit_slab_returned_inv h sh bsz a next Hv) as [c [bm [Hc Hb]]].
  rewrite (visit_slab_trace h sh bsz a c bm Hc Hb).
  destruct (c =? count_set_bits bm); cbn;
    repeat (apply Forall_cons || apply Forall_nil); unfold slab_line; cbn; auto.
Qed.

Lemma slab_lines_filtered (ls : list line) :
  Forall slab_line ls ->
  filter is_blank ls = [] /\ filter is_unlinked ls = [].
Proof.
  induction 1 as [| l ls Hl _ [IHb IHu]]; [auto |].
  cbn [filter]. rewrite IHb, IHu.
  destruct l; destruct Hl as [Hl | Hl]; cbn in Hl; try discriminate; auto.
Qed.

Let dump : nat -> M unit := dump_size_class fuel h ty base.

(** What a sound size class adds to the output. *)
Lemma sound_class_lines (i : nat) :
  sound_class h ty sh base i (lists i) (lasts i) = true ->
  (List.length (lists i) <= fuel)%nat ->
  result (dump i) = Returned tt /\
  slab_addresses (printed (trace (dump i))) = lists i /\
  blank_lines (trace (dump i)) = 1%nat /\
  unlinked_lines (trace (dump i)) = (if lasts i =? 1 then 1%nat else 0%nat).
Proof.
  intros Hs Hfuel. unfold dump, blank_lines, unlinked_lines.
  destruct (dump_sound_class fuel h ty sh base Hsh i _ _ Hs Hfuel)
    as [metadata [head [_ [Hrun Hl]]]].
  rewrite Hrun. cbn [trace result fst snd]. split; [reflexivity |].
  destruct (free_list_report h sh _ _ head _ Hl) as [Ha _].
  destruct (slab_lines_filtered _ (chain_lines _ _ _ _ Hl)) as [Hb Hu].
  set (visits := flat_map
                   (fun a => trace (visit_slab h sh (bitmap_size metadata) a))
                   (lists i)) in *.
  change (EvPrint (LSizeClass (size metadata) (slab_order metadata))
            :: EvLookupType name_SlabHeader
            :: visits ++ (if lasts i =? 1 then [EvPrint LUnlinked] else [])
            ++ [EvPrint LBlank])
    with ([EvPrint (LSizeClass (size metadata) (slab_order metadata));
           EvLookupType name_SlabHeader]
            ++ visits ++ (if lasts i =? 1 then [EvPrint LUnlinked] else [])
            ++ [EvPrint LBlank]).
  rewrite !printed_app, !slab_addresses_app, !filter_app, !length_app.
  rewrite Ha, Hb, Hu.
  destruct (lasts i =? 1); cbn; rewrite ?app_nil_r; auto.
Qed.

Lemma sound_classes_lines (xs : list nat) :
  (forall i, In i xs ->
     sound_class h ty sh base i (lists i) (lasts i) = true /\
     (List.length (lists i) <= fuel)%nat) ->
  let t := flat_map (fun i => trace (dump i)) xs in
  (forall i, In i xs -> result (dump i) = Returned tt) /\
  slab_addresses (printed t) = flat_map lists xs /\
  blank_lines t = List.length xs /\
  unlinked_lines t = List.length (filter (fun i => lasts i =? 1) xs).
Proof.
  induction xs as [| i rest IH]; intros Hall t; subst t.
  - repeat split; try reflexivity. intros i [].
  - destruct (Hall i (or_introl eq_refl)) as [Hs Hf].
    destruct (sound_class_lines i Hs Hf) as [Hr [Ha [Hb Hu]]].
    destruct IH as [IHr [IHa [IHb IHu]]];
      [intros j Hj; apply Hall; right; exact Hj |].
    unfold blank_lines, unlinked_lines in *.
    cbn [flat_map filter List.length].
    rewrite !printed_app, slab_addresses_app, !filter_app, !length_app.
    rewrite Ha, Hb, Hu, IHa, IHb, IHu.
    split; [intros j [<- | Hj]; auto |].
    destruct (lasts i =? 1); cbn [List.length]; repeat split; lia.
Qed.

End SoundHeap.

(** X11: a sound heap is dumped in full.  When the debug information is
    complete and each of the 25 size classes has a decodable entry and a
    list of slabs that ends in 0 or 1, the run returns; it reports the
    slabs of all lists, class after class and in link order within each
    class, prints 25 headers and 25 blank lines, and one unlinked line for
    each list that ends in 1. *)
Theorem sound_heap_fully_dumped (fuel : nat) (h : gdb_host)
    (ty : SizeClass_type) (sh : SlabHeader_type) (base : N)
    (lists : nat -> list N) (lasts : nat -> N)
    (Hty : type_SizeClass h = Some ty)
    (Hsym : symbol_ALLOCATOR h = Some base)
    (Hsh : type_SlabHeader h = Some sh)
    (Hsound : forall i, (i < SIZE_CLASS_COUNT)%nat ->
       sound_class h ty sh base i (lists i) (lasts i) = true)
    (Hfuel : forall i, (i < SIZE_CLASS_COUNT)%nat ->
       (List.length (lists i) <= fuel)%nat) :
  result (invoke fuel h) = Returned tt /\
  slab_addresses (printed (trace (invoke fuel h)))
  = flat_map lists (seq 0 SIZE_CLASS_COUNT) /\
  List.length (headers (trace (invoke fuel h))) = SIZE_CLASS_COUNT /\
  blank_lines (trace (invoke fuel h)) = SIZE_CLASS_COUNT /\
  unlinked_lines (trace (invoke fuel h))
  = List.length (filter (fun i => lasts i =? 1) (seq 0 SIZE_CLASS_COUNT)).
Proof.
  destruct (sound_classes_lines fuel h ty sh base lists lasts Hsh
              (seq 0 SIZE_CLASS_COUNT)) as [Hr [Ha [Hb Hu]]].
  { intros i Hi. apply in_seq in Hi. split; [apply Hsound | apply Hfuel]; lia. }
  rewrite (invoke_unfold fuel h ty base Hty Hsym).
  rewrite (for_each_returns _ _ Hr). cbn [trace result fst snd].
  split; [reflexivity |].
  unfold blank_lines, unlinked_lines in *.
  rewrite headers_app, !printed_app, slab_addresses_app, !filter_app, !length_app.
  rewrite Ha, Hb, Hu.
  fold (headers (flat_map (fun i => trace (dump_size_class fuel h ty base i))
                   (seq 0 SIZE_CLASS_COUNT))).
  rewrite (headers_for_each_eq fuel h ty base _ Hr), length_seq.
  repeat split.
Qed.

Lemma sound_heap_fully_dumped_witness :
  result (invoke 2 Scenario.unlinked) = Returned tt /\
  slab_addresses (printed (trace (invoke 2 Scenario.unlinked))) = [8192; 12288] /\
  unlinked_lines (trace (invoke 2 Scenario.unlinked)) = 1%nat.
Proof.
  destruct (sound_heap_fully_dumped 2 Scenario.unlinked Scenario.size_class_type
              Scenario.slab_header_type Scenario.table_base
              (fun i => if Nat.eqb i 0 then [8192; 12288] else [])
              (fun i => if Nat.eqb i 0 then 1 else 0))
    as [H1 [H2 [_ [_ H5]]]]; try reflexivity.
  - intros i Hi.
    do 25 (destruct i as [| i]; [vm_compute; reflexivity |]).
    unfold SIZE_CLASS_COUNT in Hi. lia.
  - intros i Hi. destruct i; cbn; lia.
  - split; [exact H1 |]. split; [exact H2 | exact H5].
Defined.
